(** * Sephora scraper: the two scraping scripts, embedded and verified

    [sephora_scr.py] (the link collector) pages through the category
    listings and accumulates (category, URL) rows; [product_scr.py] (the
    detail extractor) visits every product URL and sorts it into the
    product table or the skipped table.

    The browser (Selenium) and the markup parser (BeautifulSoup) are the
    environment.  The browser is an interface whose operations transform
    an abstract world and may raise; the parsed page is a small DOM tree
    with the three bs4 queries the script uses. *)

From Stdlib Require Import ZArith Ascii String.
From stdpp Require Import base decidable option list gmap strings pretty.

Local Open Scope string_scope.
Local Open Scope nat_scope.
Local Open Scope list_scope.
#[local] Set Warnings "-register-all,-clear-no-such-hyp".

(** ** Python strings *)

Module Str.

(** [str.isspace] on one code unit: the ASCII white space of Python. *)
Definition isspace (c : ascii) : bool :=
  let n := nat_of_ascii c in
  (9 <=? n) && (n <=? 13) || (28 <=? n) && (n <=? 32).

Fixpoint lstrip (s : string) : string :=
  match s with
  | String c s' => if isspace c then lstrip s' else s
  | EmptyString => EmptyString
  end.

Definition rstrip (s : string) : string := String.rev (lstrip (String.rev s)).

(** [s.strip()] *)
Definition strip (s : string) : string := rstrip (lstrip s).

Fixpoint startswith (p s : string) : bool :=
  match p, s with
  | EmptyString, _ => true
  | String a p', String b s' => if decide (a = b) then startswith p' s' else false
  | String _ _, EmptyString => false
  end.

(** [needle in hay] *)
Fixpoint contains (needle hay : string) : bool :=
  startswith needle hay ||
  match hay with
  | String _ hay' => contains needle hay'
  | EmptyString => false
  end.

(** [sep.join(l)] *)
Fixpoint join (sep : string) (l : list string) : string :=
  match l with
  | [] => EmptyString
  | [s] => s
  | s :: l' => s +:+ sep +:+ join sep l'
  end.

(** Truth value of a [str]: the empty string is falsy. *)
Definition truthy (s : string) : bool := negb (bool_decide (s = EmptyString)).

End Str.

(** ** Python exceptions and the state-and-exception monad *)

Module Py.

(** The exception classes that matter to the scripts.  Selenium's errors
    and every ordinary error derive from [Exception]; [KeyboardInterrupt]
    and [SystemExit] derive from [BaseException] only. *)
Inductive exc : Type :=
| TimeoutException
| NoSuchElementException
| WebDriverException
| OtherException (name : string)
| KeyboardInterrupt
| SystemExit.

(** [isinstance(e, Exception)]: what an [except Exception:] clause matches. *)
Definition isinstance_Exception (e : exc) : bool :=
  match e with
  | KeyboardInterrupt | SystemExit => false
  | _ => true
  end.

Inductive result (A : Type) : Type :=
| Ok (a : A)
| Raise (e : exc).
Global Arguments Ok {A} a.
Global Arguments Raise {A} e.

(** A statement: it transforms the store and either returns or raises.
    Mutations made before a raise stay in the store. *)
Definition M (S A : Type) : Type := S → result A * S.

Definition ret {S A} (a : A) : M S A := λ s, (Ok a, s).

Definition bind {S A B} (m : M S A) (k : A → M S B) : M S B :=
  λ s, match m s with
       | (Ok a, s') => k a s'
       | (Raise e, s') => (Raise e, s')
       end.

Definition raise {S A} (e : exc) : M S A := λ s, (Raise e, s).

(** [try: body / except Exception: handler] *)
Definition try_except {S A} (body : M S A) (handler : exc → M S A) : M S A :=
  λ s, match body s with
       | (Ok a, s') => (Ok a, s')
       | (Raise e, s') =>
           if isinstance_Exception e then handler e s' else (Raise e, s')
       end.

(** [try: body / finally: cleanup]: the cleanup runs on every exit of
    the body; an exception of the body is raised again after it, unless
    the cleanup itself raises. *)
Definition try_finally {S A} (body : M S A) (cleanup : M S unit) : M S A :=
  λ s, match body s with
       | (r, s') =>
           match cleanup s' with
           | (Ok _, s'') => (r, s'')
           | (Raise e, s'') => (Raise e, s'')
           end
       end.

(** [for x in l: body(x)] *)
Fixpoint for_each {S A} (l : list A) (body : A → M S unit) : M S unit :=
  match l with
  | [] => ret tt
  | x :: l' => bind (body x) (λ _, for_each l' body)
  end.

(** Run a total store update. *)
Definition modify {S} (f : S → S) : M S unit := λ s, (Ok tt, f s).

(** A statement that may run for ever: [None] when the fuel given to its
    [while] loops is used up before it ends. *)
Definition MW (S A : Type) : Type := S → option (result A * S).

Definition retW {S A} (a : A) : MW S A := λ s, Some (Ok a, s).

Definition bindW {S A B} (m : MW S A) (k : A → MW S B) : MW S B :=
  λ s, match m s with
       | Some (Ok a, s') => k a s'
       | Some (Raise e, s') => Some (Raise e, s')
       | None => None
       end.

(** A statement without loops of its own, as one that may run for ever. *)
Definition total {S A} (m : M S A) : MW S A := λ s, Some (m s).

(** [for x in l: acc = body(x, acc)] *)
Fixpoint for_fold {S A X} (l : list X) (body : X → A → MW S A) (acc : A) : MW S A :=
  match l with
  | [] => retW acc
  | x :: l' => bindW (body x acc) (for_fold l' body)
  end.

End Py.

Declare Scope py_scope.
Delimit Scope py_scope with py.
Notation "x <- c ;; k" := (Py.bind c (λ x, k))
  (at level 100, c at next level, k at level 200, right associativity) : py_scope.
Notation "c ;;; k" := (Py.bind c (λ _, k))
  (at level 100, k at level 200, right associativity) : py_scope.

Declare Scope pyw_scope.
Delimit Scope pyw_scope with pyw.
Notation "x <- c ;; k" := (Py.bindW c (λ x, k))
  (at level 100, c at next level, k at level 200, right associativity) : pyw_scope.
Notation "c ;;; k" := (Py.bindW c (λ _, k))
  (at level 100, k at level 200, right associativity) : pyw_scope.

(** ** The parsed page (BeautifulSoup) *)

Module Soup.

(** A parse tree: text nodes ([NavigableString]) and tags with their
    attribute dictionary and children. *)
Inductive node : Type :=
| NavigableString (s : string)
| Tag (name : string) (attrs : gmap string string) (contents : list node).

(** [node.descendants]: every node below, in document order. *)
Fixpoint descendants (n : node) : list node :=
  match n with
  | NavigableString _ => []
  | Tag _ _ cs => flat_map (λ c, c :: descendants c) cs
  end.

Definition as_string (n : node) : option string :=
  match n with NavigableString s => Some s | Tag _ _ _ => None end.

(** The text nodes below [n], in document order. *)
Definition strings (n : node) : list string := omap as_string (descendants n).

(** [n.find(string=p)]: the first text node that satisfies [p]. *)
Definition find_string (p : string → bool) (n : node) : option string :=
  List.find p (strings n).

Definition is_tag (name : string) (n : node) : bool :=
  match n with
  | Tag nm _ _ => bool_decide (nm = name)
  | NavigableString _ => false
  end.

Definition has_attr (key value : string) (n : node) : bool :=
  match n with
  | Tag _ attrs _ => bool_decide (attrs !! key = Some value)
  | NavigableString _ => false
  end.

(** [n.find(name, {key: value})]: the first tag below [n] with that name
    and that attribute value. *)
Definition find (name key value : string) (n : node) : option node :=
  List.find (λ d, is_tag name d && has_attr key value d) (descendants n).

(** [n.find_all(name)] *)
Definition find_all (name : string) (n : node) : list node :=
  List.filter (is_tag name) (descendants n).

(** [n.text]: all text below [n], concatenated. *)
Definition text (n : node) : string := Str.join EmptyString (strings n).

(** [n.get_text(strip=True)]: every text node stripped, the empty ones
    left out. *)
Definition get_text_strip (n : node) : string :=
  Str.join EmptyString (List.filter Str.truthy (map Str.strip (strings n))).

End Soup.

(** ** The detail extractor: [product_scr.py] *)

Module ProductScr.
Import Py.

(** A cell of a table read by [pd.read_csv]: an empty field is read as
    the missing value. *)
Inductive cell : Type :=
| NaN
| Text (s : string).

#[global] Instance cell_eq_dec : EqDecision cell.
Proof. solve_decision. Defined.

Definition notna (c : cell) : bool :=
  match c with NaN => false | Text _ => true end.

(** A row of [data/product_urls.csv]. *)
Record row : Type := { row_category : cell; row_URL : cell }.

(** [data.dropna(subset=["URL"])] *)
Definition dropna_URL (data : list row) : list row :=
  List.filter (λ r, notna (row_URL r)) data.

(** A row of [data/product_data.csv]; [None] is Python's [None]. *)
Record product : Type := {
  Category : cell;
  URL : cell;
  Brand : option string;
  Product_Name : option string;
  Ingredients : option string;
}.

(** A row of [data/product_skipped.csv]. *)
Record skipped : Type := { skipped_Category : cell; skipped_URL : cell }.

(** What the script prints. *)
Inductive line : Type :=
| Scraping (url : cell)
| SkippingUnavailable (url : cell)
| ErrorScraping (url : cell)
| Traceback (e : exc)
| ScrapingComplete.

(** The journal of the calls that reach the browser session. *)
Inductive call : Type :=
| Get (url : cell)
| Quit.

Definition WebElement : Type := nat.

(** The Selenium session as the script uses it.  Every operation acts on
    the browser's world [W] and returns or raises. *)
Record WebDriver (W : Type) : Type := {
  drv_get : cell → W → result unit * W;
  (* WebDriverWait(driver, t).until(EC.presence_of_element_located((By.TAG_NAME, "body"))) *)
  drv_wait_body : nat → W → result unit * W;
  (* driver.find_element(By.ID, id) *)
  drv_find_element_by_id : string → W → result WebElement * W;
  (* driver.execute_script("arguments[0].scrollIntoView();", e) *)
  drv_scroll_into_view : WebElement → W → result unit * W;
  drv_page_source : W → result string * W;
  drv_quit : W → result unit * W;
}.
Global Arguments drv_get {W} _ _ _.
Global Arguments drv_wait_body {W} _ _ _.
Global Arguments drv_find_element_by_id {W} _ _ _.
Global Arguments drv_scroll_into_view {W} _ _ _.
Global Arguments drv_page_source {W} _ _.
Global Arguments drv_quit {W} _ _.

Definition marker : string := "Sorry, this product is not available".

(** [lambda text: text and marker in text] *)
Definition is_unavailable (text : string) : bool :=
  Str.truthy text && Str.contains marker text.

(** Truth value of the result of [soup.find(string=...)]. *)
Definition found (o : option string) : bool :=
  match o with Some t => Str.truthy t | None => false end.

Section main.
Context {W : Type} (B : WebDriver W).
(** [BeautifulSoup(markup, "html.parser")] *)
Context (BeautifulSoup : string → Soup.node).

(** The store of one run: the session, the locals of [main], the
    console, the journal of session calls and the two output files
    ([None]: not written by this run). *)
Record state : Type := {
  driver : W;
  products : list product;
  skipped_urls : list skipped;
  stdout : list line;
  calls : list call;
  product_data_csv : option (list product);
  product_skipped_csv : option (list skipped);
}.

Definition set_driver (w : W) (s : state) : state :=
  {| driver := w; products := products s; skipped_urls := skipped_urls s;
     stdout := stdout s; calls := calls s;
     product_data_csv := product_data_csv s;
     product_skipped_csv := product_skipped_csv s |}.

Definition set_products (l : list product) (s : state) : state :=
  {| driver := driver s; products := l; skipped_urls := skipped_urls s;
     stdout := stdout s; calls := calls s;
     product_data_csv := product_data_csv s;
     product_skipped_csv := product_skipped_csv s |}.

Definition set_skipped_urls (l : list skipped) (s : state) : state :=
  {| driver := driver s; products := products s; skipped_urls := l;
     stdout := stdout s; calls := calls s;
     product_data_csv := product_data_csv s;
     product_skipped_csv := product_skipped_csv s |}.

Definition set_stdout (l : list line) (s : state) : state :=
  {| driver := driver s; products := products s; skipped_urls := skipped_urls s;
     stdout := l; calls := calls s;
     product_data_csv := product_data_csv s;
     product_skipped_csv := product_skipped_csv s |}.

Definition set_calls (l : list call) (s : state) : state :=
  {| driver := driver s; products := products s; skipped_urls := skipped_urls s;
     stdout := stdout s; calls := l;
     product_data_csv := product_data_csv s;
     product_skipped_csv := product_skipped_csv s |}.

Definition write_csv (s : state) : state :=
  {| driver := driver s; products := products s; skipped_urls := skipped_urls s;
     stdout := stdout s; calls := calls s;
     product_data_csv := Some (products s);
     product_skipped_csv := Some (skipped_urls s) |}.

Definition print (l : line) : M state unit :=
  modify (λ s, set_stdout (stdout s ++ [l]) s).

Definition journal (c : call) : M state unit :=
  modify (λ s, set_calls (calls s ++ [c]) s).

(** Run a session operation on the session held in the store. *)
Definition session {A} (op : W → result A * W) : M state A :=
  λ s, let '(r, w) := op (driver s) in (r, set_driver w s).

Definition driver_get (url : cell) : M state unit :=
  (journal (Get url) ;;; session (drv_get B url))%py.

Definition driver_quit : M state unit :=
  (journal Quit ;;; session (drv_quit B))%py.

(** Lines 67-80: load the page, wait for its body, scroll the
    ingredients section into view if there is one, and parse what the
    browser rendered. *)
Definition render (url : cell) : M state Soup.node :=
  (print (Scraping url) ;;;
   driver_get url ;;;
   session (drv_wait_body B 15) ;;;
   try_except
     (section <- session (drv_find_element_by_id B "ingredients") ;;
      session (drv_scroll_into_view B section))
     (λ _, ret tt) ;;;
   page_source <- session (drv_page_source B) ;;
   ret (BeautifulSoup page_source))%py.

(** Lines 91-95: [tag.text.strip() if tag else None]. *)
Definition text_of (tag : option Soup.node) : option string :=
  match tag with
  | Some t => Some (Str.strip (Soup.text t))
  | None => None
  end.

(** Lines 97-106. *)
Definition ingredients_of (soup : Soup.node) : option string :=
  match Soup.find "div" "id" "ingredients" soup with
  | Some ingredient_div =>
      let divs := Soup.find_all "div" ingredient_div in
      let texts :=
        List.filter Str.truthy (map Soup.get_text_strip divs) in
      match texts with
      | [] => None
      | _ => Some (Str.join " " texts)
      end
  | None => None
  end.

Definition extract (url category : cell) (soup : Soup.node) : product :=
  let name := text_of (Soup.find "span" "data-at" "product_name" soup) in
  let brand := text_of (Soup.find "a" "data-at" "brand_name" soup) in
  let ingredients := ingredients_of soup in
  {| Category := category; URL := url; Brand := brand;
     Product_Name := name; Ingredients := ingredients |}.

(** Lines 83-117: the unavailable page goes to [skipped_urls] and the
    iteration ends ([continue]); any other page is extracted and goes
    to [products]. *)
Definition record (url category : cell) (soup : Soup.node) : M state unit :=
  if found (Soup.find_string is_unavailable soup) then
    (print (SkippingUnavailable url) ;;;
     modify (λ s, set_skipped_urls
                    (skipped_urls s ++
                       [{| skipped_Category := category; skipped_URL := url |}]) s))%py
  else
    modify (λ s, set_products (products s ++ [extract url category soup]) s).

(** The body of the inner [try] (lines 67-117). *)
Definition item_body (url category : cell) : M state unit :=
  (soup <- render url ;; record url category soup)%py.

(** One iteration of the loop: the body under [except Exception]. *)
Definition scrape_item (url category : cell) : M state unit :=
  try_except (item_body url category)
    (λ e, print (ErrorScraping url) ;;; print (Traceback e))%py.

(** The loop of line 65 over [zip(urls, categories)]. *)
Definition scrape_all (items : list (cell * cell)) : M state unit :=
  for_each items (λ item, scrape_item item.1 item.2).

(** [main()], from the point where [init_driver()] has returned the
    session held in the store. *)
Definition main (urls categories : list cell) : M state unit :=
  (modify (set_products []) ;;;
   modify (set_skipped_urls []) ;;;
   try_finally (scrape_all (zip urls categories)) driver_quit ;;;
   modify write_csv ;;;
   print ScrapingComplete)%py.

(** The script: the module-level reading of the input table, then
    [main()]. *)
Definition script (csv : list row) : M state unit :=
  let data := dropna_URL csv in
  let urls := map row_URL data in
  let categories := map row_category data in
  main urls categories.

End main.
End ProductScr.

(** ** The link collector: [sephora_scr.py] *)

Module SephoraScr.
Import Py.

(** A row of [final_df]. *)
Record link : Type := { category : string; URL : string }.

#[global] Instance link_eq_dec : EqDecision link.
Proof. solve_decision. Defined.

(** What the script prints. *)
Inductive line : Type :=
| LoadingPage (page : nat) (url : string)
| Collected (current_count : Z) (page : nat)
| NoProductsFound.

(** The journal of the calls that reach the browser session. *)
Inductive call : Type :=
| Get (url : string)
| Quit.

Definition WebElement : Type := nat.

(** The Selenium session as the script uses it, and the passing of time:
    while the script sleeps the page goes on loading. *)
Record WebDriver (W : Type) : Type := {
  drv_get : string → W → result unit * W;
  (* driver.execute_script("window.scrollBy(x, y);") *)
  drv_scroll_by : Z → Z → W → result unit * W;
  (* driver.find_elements(By.CSS_SELECTOR, selector) *)
  drv_find_elements_css : string → W → result (list WebElement) * W;
  (* element.find_elements(By.XPATH, xpath) *)
  elt_find_elements_xpath : WebElement → string → W → result (list WebElement) * W;
  (* element.get_attribute(name) *)
  elt_get_attribute : WebElement → string → W → result (option string) * W;
  (* time.sleep(milliseconds / 1000) *)
  time_sleep : nat → W → W;
  drv_quit : W → result unit * W;
}.
Global Arguments drv_get {W} _ _ _.
Global Arguments drv_scroll_by {W} _ _ _ _.
Global Arguments drv_find_elements_css {W} _ _ _.
Global Arguments elt_find_elements_xpath {W} _ _ _ _.
Global Arguments elt_get_attribute {W} _ _ _ _.
Global Arguments time_sleep {W} _ _ _.
Global Arguments drv_quit {W} _ _.

(** How one page of the loop of line 45 ends: it goes on to the next page
    with the set of links seen so far, or it leaves the loop ([break]). *)
Inductive flow : Type :=
| Continue (all_hrefs : gset string)
| Break.

(** [f"{base_url}/{category}?currentPage={page}"] *)
Definition page_url (base_url category : string) (page : nat) : string :=
  base_url +:+ "/" +:+ category +:+ "?currentPage=" +:+ pretty page.

(** Lines 59-64: the two counters after one more count of the blocks. *)
Definition count_step (previous_count : Z) (scroll_attempts : nat) (current_count : Z)
  : Z * nat :=
  let scroll_attempts :=
    if bool_decide (current_count = previous_count)
    then S scroll_attempts else 0 in
  (current_count, scroll_attempts).

(** The base URL of line 105. *)
Definition shop_url : string := "https://www.sephora.com/shop".

(** Lines 94-100. *)
Definition categories : list string :=
  ["cleanser"; "facial-treatments"; "moisturizing-cream-oils-mists";
   "lip-balm-lip-care"; "face-mask"; "sunscreen-sun-protection";
   "eye-treatment-dark-circle-treatment"].

Section script.
Context {W : Type} (B : WebDriver W).

(** The store of one run: the session, the table [final_df] (one object,
    changed in place), the console, the journal of session calls and the
    output file ([None]: not written by this run). *)
Record state : Type := {
  driver : W;
  final_df : list link;
  stdout : list line;
  calls : list call;
  product_urls_full_csv : option (list link);
}.

Definition set_driver (w : W) (s : state) : state :=
  {| driver := w; final_df := final_df s; stdout := stdout s;
     calls := calls s; product_urls_full_csv := product_urls_full_csv s |}.

Definition set_final_df (l : list link) (s : state) : state :=
  {| driver := driver s; final_df := l; stdout := stdout s;
     calls := calls s; product_urls_full_csv := product_urls_full_csv s |}.

Definition set_stdout (l : list line) (s : state) : state :=
  {| driver := driver s; final_df := final_df s; stdout := l;
     calls := calls s; product_urls_full_csv := product_urls_full_csv s |}.

Definition set_calls (l : list call) (s : state) : state :=
  {| driver := driver s; final_df := final_df s; stdout := stdout s;
     calls := l; product_urls_full_csv := product_urls_full_csv s |}.

Definition write_csv (s : state) : state :=
  {| driver := driver s; final_df := final_df s; stdout := stdout s;
     calls := calls s; product_urls_full_csv := Some (final_df s) |}.

Definition print (l : line) : MW state unit :=
  total (modify (λ s, set_stdout (stdout s ++ [l]) s)).

Definition journal (c : call) : MW state unit :=
  total (modify (λ s, set_calls (calls s ++ [c]) s)).

(** Run a session operation on the session held in the store. *)
Definition session {A} (op : W → result A * W) : MW state A :=
  λ s, let '(r, w) := op (driver s) in Some (r, set_driver w s).

Definition sleep (ms : nat) : MW state unit :=
  total (modify (λ s, set_driver (time_sleep B ms (driver s)) s)).

Definition driver_get (url : string) : MW state unit :=
  (journal (Get url) ;;; session (drv_get B url))%pyw.

Definition driver_quit : MW state unit :=
  (journal Quit ;;; session (drv_quit B))%pyw.

Definition block_selector : string := "div.css-11ifn8v.e15t7owz0".
Definition anchor_xpath : string := ".//a[contains(@href, '/product/')]".

(** Lines 55-67: count the blocks, scroll and pause, until the count has
    been the same as the one before it seven times in a row.  The result
    is [product_blocks] of the last count. *)
Fixpoint scroll_loop (fuel : nat) (previous_count : Z) (scroll_attempts : nat)
    (product_blocks : list WebElement) {struct fuel} : MW state (list WebElement) :=
  if bool_decide (scroll_attempts < 7) then
    match fuel with
    | O => λ _, None
    | S fuel' =>
        (product_blocks <- session (drv_find_elements_css B block_selector) ;;
         let current_count := Z.of_nat (length product_blocks) in
         let '(previous_count, scroll_attempts) :=
           count_step previous_count scroll_attempts current_count in
         session (drv_scroll_by B 0 300) ;;;
         sleep 1500 ;;;
         scroll_loop fuel' previous_count scroll_attempts product_blocks)%pyw
    end
  else retW product_blocks.

(** Lines 46-67: load one listing page and scroll it until it is stable. *)
Definition load_page (fuel : nat) (base_url category : string) (page : nat)
  : MW state (list WebElement) :=
  (let url := page_url base_url category page in
   print (LoadingPage page url) ;;;
   driver_get url ;;;
   sleep 4000 ;;;
   session (drv_scroll_by B 0 1) ;;;
   sleep 500 ;;;
   scroll_loop fuel (-1) 0 [])%pyw.

(** Lines 77-80: one anchor. *)
Definition collect_anchor (category : string) (anchor : WebElement)
    (all_hrefs : gset string) : MW state (gset string) :=
  (href <- session (elt_get_attribute B anchor "href") ;;
   match href with
   | Some href =>
       if Str.truthy href && bool_decide (href ∉ all_hrefs) then
         total (modify (λ s, set_final_df
                  (final_df s ++ [{| category := category; URL := href |}]) s)) ;;;
         retW ({[href]} ∪ all_hrefs)
       else retW all_hrefs
   | None => retW all_hrefs
   end)%pyw.

(** Lines 74-80: the links of every block. *)
Definition collect_links (category : string) (product_blocks : list WebElement)
    (all_hrefs : gset string) : MW state (gset string) :=
  for_fold product_blocks
    (λ block all_hrefs,
       (anchors <- session (elt_find_elements_xpath B block anchor_xpath) ;;
        for_fold anchors (collect_anchor category) all_hrefs)%pyw)
    all_hrefs.

(** Lines 46-80: one turn of the loop over the pages. *)
Definition scrape_page (fuel : nat) (base_url category : string) (page : nat)
    (all_hrefs : gset string) : MW state flow :=
  (product_blocks <- load_page fuel base_url category page ;;
   let current_count := Z.of_nat (length product_blocks) in
   print (Collected current_count page) ;;;
   if bool_decide (current_count = 0%Z) then
     print NoProductsFound ;;; retW Break
   else
     all_hrefs <- collect_links category product_blocks all_hrefs ;;
     retW (Continue all_hrefs))%pyw.

(** The loop of line 45 over the page numbers. *)
Fixpoint for_pages (fuel : nat) (base_url category : string) (pages : list nat)
    (all_hrefs : gset string) : MW state flow :=
  match pages with
  | [] => retW (Continue all_hrefs)
  | page :: pages' =>
      (f <- scrape_page fuel base_url category page all_hrefs ;;
       match f with
       | Continue all_hrefs => for_pages fuel base_url category pages' all_hrefs
       | Break => retW Break
       end)%pyw
  end.

(** [scrape_all_paginated_products(driver, base_url, category, final_df,
    max_pages)]; the table it returns is [final_df] of the store. *)
Definition scrape_all_paginated_products (fuel : nat) (base_url category : string)
    (max_pages : nat) : MW state unit :=
  (let all_hrefs : gset string := ∅ in
   _ <- for_pages fuel base_url category (seq 1 max_pages) all_hrefs ;;
   retW tt)%pyw.

(** Lines 104-105 for a list of categories. *)
Definition scrape_categories (fuel : nat) (cats : list string) : MW state unit :=
  for_fold cats
    (λ category _, scrape_all_paginated_products fuel shop_url category 50)
    tt.

(** The script from line 101 on, with the session of line 91 in the
    store. *)
Definition script (fuel : nat) : MW state unit :=
  (total (modify (set_final_df [])) ;;;
   scrape_categories fuel categories ;;;
   driver_quit ;;;
   total (modify write_csv))%pyw.

End script.
End SephoraScr.

(** ** The notions the properties of the detail extractor speak of *)

Module ProductSpec.
Import Py ProductScr.

(** The table the row of an item lands in. *)
Inductive outcome : Type :=
| ToProducts
| ToSkipped
| ToNeither.

#[global] Instance outcome_eq_dec : EqDecision outcome.
Proof. solve_decision. Defined.

(** The page has a text node that contains the unavailability marker. *)
Definition shows_marker (soup : Soup.node) : Prop :=
  ∃ text, text ∈ Soup.strings soup ∧ Str.contains marker text = true.

(** Two stores agree on the tables and on the files. *)
Definition same_tables {W : Type} (s s' : state (W:=W)) : Prop :=
  products s' = products s ∧ skipped_urls s' = skipped_urls s ∧
  product_data_csv s' = product_data_csv s ∧
  product_skipped_csv s' = product_skipped_csv s.

Section outcomes.
Context {W : Type} (B : WebDriver W) (BeautifulSoup : string → Soup.node).

(** The outcome of an item processed from store [s]: skipped when its page
    is rendered and shows the marker, a product when it is rendered
    without the marker, neither when rendering raises. *)
Definition outcome_of (url : cell) (s : state) : outcome :=
  match render B BeautifulSoup url s with
  | (Ok soup, _) =>
      if found (Soup.find_string is_unavailable soup) then ToSkipped else ToProducts
  | (Raise _, _) => ToNeither
  end.

(** The outcomes of the items of a run from store [s], one per item; the
    items behind an exception that leaves the loop are never processed. *)
Fixpoint outcomes (items : list (cell * cell)) (s : state) : list outcome :=
  match items with
  | [] => []
  | item :: items' =>
      outcome_of item.1 s ::
      match scrape_item B BeautifulSoup item.1 item.2 s with
      | (Ok _, s') => outcomes items' s'
      | (Raise _, _) => map (λ _, ToNeither) items'
      end
  end.

(** The items with outcome [o], in the order of the input. *)
Definition select (o : outcome) (items : list (cell * cell)) (os : list outcome)
  : list (cell * cell) :=
  map fst (List.filter (λ p, bool_decide (p.2 = o)) (zip items os)).

Definition product_key (p : product) : cell * cell := (URL p, Category p).
Definition skipped_key (k : skipped) : cell * cell := (skipped_URL k, skipped_Category k).

(** Item [(url, category)], reached in store [s1] with [before] processed
    from [s] and [after] still to come, is isolated: its iteration returns,
    leaves both tables as they were, and the loop goes on with [after];
    every later item that the loop reaches is requested from the browser
    and, when its page is rendered, lands in its table. *)
Definition isolated (before : list (cell * cell)) (url category : cell)
    (after : list (cell * cell)) (s s1 : state) : Prop :=
  let s3 := (scrape_item B BeautifulSoup url category s1).2 in
  let final := (scrape_all B BeautifulSoup (before ++ (url, category) :: after) s).2 in
  (scrape_item B BeautifulSoup url category s1).1 = Ok tt ∧
  products s3 = products s1 ∧
  skipped_urls s3 = skipped_urls s1 ∧
  scrape_all B BeautifulSoup (before ++ (url, category) :: after) s
    = scrape_all B BeautifulSoup after s3 ∧
  ∀ (mid : list (cell * cell)) url' category' rest s4,
    after = mid ++ (url', category') :: rest →
    scrape_all B BeautifulSoup mid s3 = (Ok tt, s4) →
    Get url' ∈ calls final ∧
    ∀ soup s5,
      render B BeautifulSoup url' s4 = (Ok soup, s5) →
      if found (Soup.find_string is_unavailable soup)
      then {| skipped_Category := category'; skipped_URL := url' |} ∈ skipped_urls final
      else extract url' category' soup ∈ products final.

End outcomes.

(** Per-item isolation for the exceptions that satisfy [caught]. *)
Definition per_item_isolation_for (caught : exc → Prop) : Prop :=
  ∀ (W : Type) (B : WebDriver W) (BeautifulSoup : string → Soup.node)
    before url category after (s s1 s2 : state) (e : exc),
    scrape_all B BeautifulSoup before s = (Ok tt, s1) →
    item_body B BeautifulSoup url category s1 = (Raise e, s2) →
    caught e →
    isolated B BeautifulSoup before url category after s s1.

End ProductSpec.

(** ** The notions the properties of the link collector speak of *)

Module SephoraSpec.
Import Py SephoraScr.

(** Read [i] of a sequence of block counts is unchanged when it equals the
    read before it; the first read has none before it. *)
Definition unchanged (counts : list Z) (i : nat) : Prop :=
  match i with
  | O => False
  | S j => ∃ c, counts !! j = Some c ∧ counts !! i = Some c
  end.

(** After [n] reads the last seven of them were unchanged. *)
Definition stable_after (counts : list Z) (n : nat) : Prop :=
  7 ≤ n ≤ length counts ∧ ∀ i, n - 7 ≤ i < n → unchanged counts i.

(** The loop of lines 55-67 on a given sequence of counts: it ends exactly
    behind the sequence. *)
Fixpoint exits (previous_count : Z) (scroll_attempts : nat) (cs : list Z) : Prop :=
  match cs with
  | [] => ¬ scroll_attempts < 7
  | c :: cs' =>
      scroll_attempts < 7 ∧ exits c (count_step previous_count scroll_attempts c).2 cs'
  end.

(** The value of [scroll_attempts] behind a sequence of counts. *)
Fixpoint attempts (previous_count : Z) (scroll_attempts : nat) (cs : list Z) : nat :=
  match cs with
  | [] => scroll_attempts
  | c :: cs' => attempts c (count_step previous_count scroll_attempts c).2 cs'
  end.

(** The rows [new] are fresh for category [cat] over the links [seen]:
    they carry that category, and their URLs differ from each other and
    from the links seen before. *)
Definition fresh_rows (cat : string) (seen : gset string) (new : list link) : Prop :=
  Forall (λ l, category l = cat) new ∧
  NoDup (map URL new) ∧
  ∀ l, l ∈ new → URL l ∉ seen.

Section observe.
Context {W : Type} (B : WebDriver W).

(** One count of the blocks, with the scroll and the pause behind it. *)
Definition look : MW (state (W:=W)) (list WebElement) :=
  (product_blocks <- session (drv_find_elements_css B block_selector) ;;
   session (drv_scroll_by B 0 300) ;;;
   sleep B 1500 ;;;
   retW product_blocks)%pyw.

(** What [n] counts in a row find, from store [s] on. *)
Fixpoint observe (n : nat) : MW (state (W:=W)) (list (list WebElement)) :=
  match n with
  | O => retW []
  | S n' =>
      (product_blocks <- look ;;
       rest <- observe n' ;;
       retW (product_blocks :: rest))%pyw
  end.

End observe.

Definition counts (obs : list (list WebElement)) : list Z :=
  map (λ product_blocks, Z.of_nat (length product_blocks)) obs.

(** Two stores agree on the table, the journal and the file. *)
Definition quiet {W : Type} (s s' : state (W:=W)) : Prop :=
  final_df s' = final_df s ∧ calls s' = calls s ∧
  product_urls_full_csv s' = product_urls_full_csv s.

(** What collecting links for category [cat], with the links [seen] so
    far, may do to the store: append fresh rows, and return the links seen
    with those of the new rows. *)
Definition collected {W : Type} (cat : string) (seen : gset string) (s : state (W:=W))
    (o : result (gset string) * state (W:=W)) : Prop :=
  ∃ new, final_df o.2 = final_df s ++ new ∧
         fresh_rows cat seen new ∧
         calls o.2 = calls s ∧
         product_urls_full_csv o.2 = product_urls_full_csv s ∧
         match o.1 with
         | Ok seen' => seen' = seen ∪ list_to_set (map URL new)
         | Raise _ => True
         end.

(** C4 as stated: no URL is twice in the table of a run. *)
Definition run_wide_deduplication : Prop :=
  ∀ (W : Type) (B : WebDriver W) (fuel : nat) (s s' : state (W:=W)) r,
    script B fuel s = Some (r, s') → NoDup (map URL (final_df s')).

End SephoraSpec.

(** C2 as stated: every run of either script that ends, with or without an
    exception, has released the session. *)
Definition released_on_every_exit : Prop :=
  (∀ (W : Type) (B : ProductScr.WebDriver W) (BeautifulSoup : string → Soup.node)
     urls categories (s : ProductScr.state (W:=W)),
     ∃ cs, ProductScr.calls (ProductScr.main B BeautifulSoup urls categories s).2
             = ProductScr.calls s ++ cs ∧ ProductScr.Quit ∈ cs) ∧
  (∀ (W : Type) (B : SephoraScr.WebDriver W) (fuel : nat)
     (s s' : SephoraScr.state (W:=W)) r,
     SephoraScr.script B fuel s = Some (r, s') →
     ∃ cs, SephoraScr.calls s' = SephoraScr.calls s ++ cs ∧ SephoraScr.Quit ∈ cs).

(** ** Further notions: well-behaved sessions, restless pages, visits *)

Module ProductExtra.
Import Py ProductScr.

(** Every exception that an operation of the session raises while an item
    is processed is an instance of [Exception]. *)
Definition only_Exception {W : Type} (B : WebDriver W) : Prop :=
  (∀ url w e w', drv_get B url w = (Raise e, w') → isinstance_Exception e = true) ∧
  (∀ t w e w', drv_wait_body B t w = (Raise e, w') → isinstance_Exception e = true) ∧
  (∀ id w e w', drv_find_element_by_id B id w = (Raise e, w') →
                isinstance_Exception e = true) ∧
  (∀ el w e w', drv_scroll_into_view B el w = (Raise e, w') →
                isinstance_Exception e = true) ∧
  (∀ w e w', drv_page_source B w = (Raise e, w') → isinstance_Exception e = true).

(** What one iteration prints behind its first line, by the way the page
    of its item renders. *)
Definition report {A} (url : cell) (rendered : result Soup.node * A) : list line :=
  match rendered.1 with
  | Ok soup =>
      if found (Soup.find_string is_unavailable soup)
      then [SkippingUnavailable url] else []
  | Raise e =>
      if isinstance_Exception e then [ErrorScraping url; Traceback e] else []
  end.

End ProductExtra.

Module SephoraExtra.
Import Py SephoraScr SephoraSpec.

(** A page is restless under [I] when, in every store that [I] relates to
    the count before it, the next count succeeds, finds another number of
    blocks, and leaves a store that [I] relates to the new count. *)
Definition restless {W : Type} (B : WebDriver W)
    (I : Z → state (W:=W) → Prop) : Prop :=
  ∀ previous_count s, I previous_count s →
    ∃ product_blocks s1,
      look B s = Some (Ok product_blocks, s1) ∧
      Z.of_nat (length product_blocks) ≠ previous_count ∧
      I (Z.of_nat (length product_blocks)) s1.

(** The visit of one category: the number of pages requested and the rows
    appended. *)
Record visit : Type := {
  visited : string;
  pages : nat;
  rows : list link;
}.

Definition requests_of (v : visit) : list call :=
  map (λ p, Get (page_url shop_url (visited v) p)) (seq 1 (pages v)).

End SephoraExtra.

(** ** A scripted shop for the detail extractor

    A small site with a fixed answer for every URL, to run the script on
    concrete inputs. *)

Module ProductDemo.
Import Py ProductScr.

(** How the site answers a URL. *)
Inductive page : Type :=
| Renders (source : string) (ingredients_section : bool)
| LoadFails (e : exc)
| BodyNeverComes (e : exc).

Definition cream_url : string := "https://www.sephora.com/product/night-cream".
Definition gone_url : string := "https://www.sephora.com/product/old-balm".
Definition mask_url : string := "https://www.sephora.com/product/clay-mask".
Definition slow_url : string := "https://www.sephora.com/product/slow".
Definition busy_url : string := "https://www.sephora.com/product/busy".

Definition cream_source : string :=
  "<span data-at='product_name'> Night Cream </span><a data-at='brand_name'>Acme</a><div id='ingredients'><div>Water</div><div> Glycerin </div></div>".
Definition gone_source : string :=
  "<p>Sorry, this product is not available.</p><span data-at='product_name'>Old Balm</span><a data-at='brand_name'>Acme</a><div id='ingredients'><div>Wax</div></div>".
Definition mask_source : string :=
  "<span data-at='product_name'>Clay Mask</span>".

Definition cream_soup : Soup.node :=
  Soup.Tag "[document]" ∅
    [Soup.Tag "span" {["data-at" := "product_name"]} [Soup.NavigableString " Night Cream "];
     Soup.Tag "a" {["data-at" := "brand_name"]} [Soup.NavigableString "Acme"];
     Soup.Tag "div" {["id" := "ingredients"]}
       [Soup.Tag "div" ∅ [Soup.NavigableString "Water"];
        Soup.Tag "div" ∅ [Soup.NavigableString " Glycerin "]]].

Definition gone_soup : Soup.node :=
  Soup.Tag "[document]" ∅
    [Soup.Tag "p" ∅ [Soup.NavigableString "Sorry, this product is not available."];
     Soup.Tag "span" {["data-at" := "product_name"]} [Soup.NavigableString "Old Balm"];
     Soup.Tag "a" {["data-at" := "brand_name"]} [Soup.NavigableString "Acme"];
     Soup.Tag "div" {["id" := "ingredients"]}
       [Soup.Tag "div" ∅ [Soup.NavigableString "Wax"]]].

Definition mask_soup : Soup.node :=
  Soup.Tag "[document]" ∅
    [Soup.Tag "span" {["data-at" := "product_name"]} [Soup.NavigableString "Clay Mask"]].

Definition empty_soup : Soup.node := Soup.Tag "[document]" ∅ [].

(** The parser on the three page sources of the site. *)
Definition parse (source : string) : Soup.node :=
  if decide (source = cream_source) then cream_soup
  else if decide (source = gone_source) then gone_soup
  else if decide (source = mask_source) then mask_soup
  else empty_soup.

(** The site: three pages that render, one whose body never comes, one
    during whose load the operator interrupts the run, and no other. *)
Definition site (url : cell) : page :=
  if decide (url = Text cream_url) then Renders cream_source true
  else if decide (url = Text gone_url) then Renders gone_source true
  else if decide (url = Text mask_url) then Renders mask_source false
  else if decide (url = Text slow_url) then BodyNeverComes TimeoutException
  else if decide (url = Text busy_url) then LoadFails KeyboardInterrupt
  else LoadFails WebDriverException.

(** The session: its world is the page it is on. *)
Definition browser : WebDriver (option page) := {|
  drv_get url _ :=
    match site url with
    | LoadFails e => (Raise e, None)
    | p => (Ok tt, Some p)
    end;
  drv_wait_body _ w :=
    match w with
    | Some (BodyNeverComes e) => (Raise e, w)
    | _ => (Ok tt, w)
    end;
  drv_find_element_by_id id w :=
    match w with
    | Some (Renders _ true) =>
        if decide (id = "ingredients") then (Ok 1, w)
        else (Raise NoSuchElementException, w)
    | _ => (Raise NoSuchElementException, w)
    end;
  drv_scroll_into_view _ w := (Ok tt, w);
  drv_page_source w :=
    match w with
    | Some (Renders source _) => (Ok source, w)
    | _ => (Ok "<html></html>", w)
    end;
  drv_quit _ := (Ok tt, None);
|}.

(** The store at the start of a run. *)
Definition start : state (W:=option page) := {|
  driver := None; products := []; skipped_urls := [];
  stdout := []; calls := [];
  product_data_csv := None; product_skipped_csv := None;
|}.

Definition skincare : cell := Text "face-mask".

(** An input table: four rows, the second without a URL. *)
Definition table : list row :=
  [{| row_category := skincare; row_URL := Text cream_url |};
   {| row_category := skincare; row_URL := NaN |};
   {| row_category := skincare; row_URL := Text gone_url |};
   {| row_category := skincare; row_URL := Text mask_url |}].

End ProductDemo.

(** ** A scripted shop for the link collector *)

Module SephoraDemo.
Import Py SephoraScr.

(** How the site answers a listing URL: the numbers of blocks that
    successive counts find while the page loads (the last one stays), and
    the link targets of the anchors of each block; or a failure to load. *)
Inductive listing : Type :=
| Listing (schedule : list nat) (blocks : list (list (option string)))
| Down (e : exc).

(** The session: the page it is on and the counts made there so far. *)
Record world : Type := { location : string; looks : nat }.

Definition night_cream : string := "https://www.sephora.com/product/night-cream".
Definition clay_mask : string := "https://www.sephora.com/product/clay-mask".
Definition lip_balm : string := "https://www.sephora.com/product/lip-balm".

(** A shop with two pages of cleansers and one page of face masks; the
    night cream is listed under both categories. *)
Definition shop (url : string) : listing :=
  if decide (url = page_url shop_url "cleanser" 1) then
    Listing [1; 2] [[Some night_cream; Some night_cream];
                    [Some clay_mask; None; Some EmptyString]]
  else if decide (url = page_url shop_url "cleanser" 2) then
    Listing [1; 3; 3; 4] [[Some clay_mask]; [Some lip_balm]; []; [Some night_cream]]
  else if decide (url = page_url shop_url "face-mask" 1) then
    Listing [1] [[Some night_cream]]
  else Listing [0] [].

(** A shop that is down. *)
Definition closed_shop (url : string) : listing := Down WebDriverException.

Definition shown (site : string → listing) (w : world) : list (list (option string)) :=
  match site (location w) with
  | Listing schedule blocks =>
      take (List.nth (looks w) schedule (List.last schedule 0)) blocks
  | Down _ => []
  end.

(** Block [i] of the page is element [i]; its anchor [j] is element
    [100 * (i + 1) + j]. *)
Definition browser (site : string → listing) : WebDriver world := {|
  drv_get url _ :=
    match site url with
    | Down e => (Raise e, {| location := url; looks := 0 |})
    | Listing _ _ => (Ok tt, {| location := url; looks := 0 |})
    end;
  drv_scroll_by _ _ w := (Ok tt, w);
  drv_find_elements_css _ w :=
    (Ok (seq 0 (length (shown site w))),
     {| location := location w; looks := S (looks w) |});
  elt_find_elements_xpath block _ w :=
    match site (location w) with
    | Listing _ blocks =>
        (Ok (map (λ j, 100 * (block + 1) + j)
               (seq 0 (length (default [] (blocks !! block))))), w)
    | Down _ => (Raise WebDriverException, w)
    end;
  elt_get_attribute anchor _ w :=
    match site (location w) with
    | Listing _ blocks =>
        (Ok (mjoin (default [] (blocks !! (anchor / 100 - 1)) !! (anchor mod 100))), w)
    | Down _ => (Raise WebDriverException, w)
    end;
  time_sleep _ w := w;
  drv_quit w := (Ok tt, w);
|}.

(** The store at the start of a run. *)
Definition start : state (W:=world) := {|
  driver := {| location := EmptyString; looks := 0 |};
  final_df := []; stdout := []; calls := [];
  product_urls_full_csv := None;
|}.


Definition store_of {A} (o : option (result A * state (W:=world))) : state (W:=world) :=
  match o with Some (_, s) => s | None => start end.


Definition blocks_of (o : option (result (list WebElement) * state (W:=world)))
  : list WebElement :=
  match o with Some (Ok product_blocks, _) => product_blocks | _ => [] end.

End SephoraDemo.

(** ** Further scripted sessions *)

Module ExtraDemo.
Import Py.

(** A session of the detail extractor in which every page loads and none
    has an ingredients section; [driver.quit()] ends as [quit] says. *)
Definition plain_browser (quit : result unit) : ProductScr.WebDriver unit := {|
  ProductScr.drv_get _ w := (Ok tt, w);
  ProductScr.drv_wait_body _ w := (Ok tt, w);
  ProductScr.drv_find_element_by_id _ w := (Raise NoSuchElementException, w);
  ProductScr.drv_scroll_into_view _ w := (Ok tt, w);
  ProductScr.drv_page_source w := (Ok "<html></html>", w);
  ProductScr.drv_quit w := (quit, w);
|}.

Definition plain_start : ProductScr.state (W:=unit) := {|
  ProductScr.driver := tt; ProductScr.products := []; ProductScr.skipped_urls := [];
  ProductScr.stdout := []; ProductScr.calls := [];
  ProductScr.product_data_csv := None; ProductScr.product_skipped_csv := None;
|}.

(** A store with rows and files left from an earlier run. *)
Definition used_store : ProductScr.state (W:=option ProductDemo.page) := {|
  ProductScr.driver := None;
  ProductScr.products :=
    [{| ProductScr.Category := ProductDemo.skincare;
        ProductScr.URL := ProductScr.Text ProductDemo.slow_url;
        ProductScr.Brand := None; ProductScr.Product_Name := None;
        ProductScr.Ingredients := None |}];
  ProductScr.skipped_urls := [];
  ProductScr.stdout := [ProductScr.ScrapingComplete];
  ProductScr.calls := [ProductScr.Quit];
  ProductScr.product_data_csv := Some [];
  ProductScr.product_skipped_csv := Some [];
|}.

(** The two halves of the marker, and a page that holds them in two text
    nodes. *)
Definition marker_head : string := "Sorry, this product ".
Definition marker_tail : string := "is not available".

Definition split_soup : Soup.node :=
  Soup.Tag "[document]" ∅
    [Soup.Tag "p" ∅ [Soup.NavigableString marker_head;
                     Soup.Tag "b" ∅ [Soup.NavigableString marker_tail]]].

(** An endless feed for the link collector: the world is the number of
    counts made so far, and every count finds one block more. *)
Definition feed : SephoraScr.WebDriver nat := {|
  SephoraScr.drv_get _ w := (Ok tt, w);
  SephoraScr.drv_scroll_by _ _ w := (Ok tt, w);
  SephoraScr.drv_find_elements_css _ w := (Ok (seq 0 (S w)), S w);
  SephoraScr.elt_find_elements_xpath _ _ w := (Ok [], w);
  SephoraScr.elt_get_attribute _ _ w := (Ok None, w);
  SephoraScr.time_sleep _ w := w;
  SephoraScr.drv_quit w := (Ok tt, w);
|}.

Definition feed_start : SephoraScr.state (W:=nat) := {|
  SephoraScr.driver := 0;
  SephoraScr.final_df := []; SephoraScr.stdout := []; SephoraScr.calls := [];
  SephoraScr.product_urls_full_csv := None;
|}.

(** On the feed, a count that was made is below the next one. *)
Definition feed_grows (previous_count : Z) (s : SephoraScr.state (W:=nat)) : Prop :=
  (previous_count ≤ Z.of_nat (SephoraScr.driver s))%Z.

End ExtraDemo.

(** * Properties of the detail extractor *)

Section product_scr_facts.
Import Py ProductScr ProductSpec.
Context {W : Type} (B : WebDriver W) (BeautifulSoup : string → Soup.node).

Local Abbreviation render := (ProductScr.render B BeautifulSoup).
Local Abbreviation record := (ProductScr.record (W:=W)).
Local Abbreviation item_body := (ProductScr.item_body B BeautifulSoup).
Local Abbreviation scrape_item := (ProductScr.scrape_item B BeautifulSoup).
Local Abbreviation scrape_all := (ProductScr.scrape_all B BeautifulSoup).
Local Abbreviation main := (ProductScr.main B BeautifulSoup).
Local Abbreviation script := (ProductScr.script B BeautifulSoup).
Local Abbreviation state := (ProductScr.state (W:=W)).

Lemma render_frame url s :
  same_tables s (render url s).2 ∧ calls (render url s).2 = calls s ++ [Get url].
Proof.
  unfold same_tables, ProductScr.render, driver_get, journal, print, session,
    try_except, bind, modify, ret.
  cbn. repeat (case_match; simplify_eq/=); done.
Qed.

Lemma contains_marker_nonempty text :
  Str.contains marker text = true → Str.truthy text = true.
Proof. destruct text; [discriminate | done]. Qed.

Lemma found_shows_marker soup :
  found (Soup.find_string is_unavailable soup) = true ↔ shows_marker soup.
Proof.
  unfold Soup.find_string, shows_marker. split.
  - destruct (List.find _ _) as [t|] eqn:Hf; [|done]. intros _.
    apply find_some in Hf as [Hin Ht].
    apply andb_true_iff in Ht as [_ Ht].
    exists t. split; [by apply list_elem_of_In | done].
  - intros (t & Hin & Ht).
    destruct (List.find _ _) as [t'|] eqn:Hf.
    + apply find_some in Hf as [_ Ht'].
      by apply andb_true_iff in Ht' as [? _].
    + apply list_elem_of_In in Hin.
      eapply find_none in Hf; [|done]. unfold is_unavailable in Hf.
      rewrite Ht, (contains_marker_nonempty _ Ht) in Hf. done.
Qed.

Lemma record_spec url category soup s :
  let s' := (record url category soup s).2 in
  (record url category soup s).1 = Ok tt ∧
  driver s' = driver s ∧ calls s' = calls s ∧
  product_data_csv s' = product_data_csv s ∧
  product_skipped_csv s' = product_skipped_csv s ∧
  if found (Soup.find_string is_unavailable soup) then
    products s' = products s ∧
    skipped_urls s' =
      skipped_urls s ++ [{| skipped_Category := category; skipped_URL := url |}]
  else
    products s' = products s ++ [extract url category soup] ∧
    skipped_urls s' = skipped_urls s.
Proof.
  unfold ProductScr.record. destruct (found _); cbn; done.
Qed.

Lemma item_body_unfold url category s :
  item_body url category s =
  match render url s with
  | (Ok soup, s1) => record url category soup s1
  | (Raise e, s1) => (Raise e, s1)
  end.
Proof. reflexivity. Qed.

Lemma item_body_raise url category s e s2 :
  item_body url category s = (Raise e, s2) → render url s = (Raise e, s2).
Proof.
  rewrite item_body_unfold.
  destruct (render url s) as [[soup|e'] s1]; [|by intros [= -> ->]].
  pose proof (record_spec url category soup s1) as [Hok _].
  destruct (record _ _ _ _) as [r s']; simpl in *; by subst.
Qed.

(** What one iteration does to the store, by the way its page renders. *)
Lemma scrape_item_spec url category s :
  let r := scrape_item url category s in
  calls r.2 = calls s ++ [Get url] ∧
  product_data_csv r.2 = product_data_csv s ∧
  product_skipped_csv r.2 = product_skipped_csv s ∧
  match render url s with
  | (Ok soup, s1) =>
      r.1 = Ok tt ∧
      if found (Soup.find_string is_unavailable soup) then
        products r.2 = products s ∧
        skipped_urls r.2 =
          skipped_urls s ++ [{| skipped_Category := category; skipped_URL := url |}]
      else
        products r.2 = products s ++ [extract url category soup] ∧
        skipped_urls r.2 = skipped_urls s
  | (Raise e, s1) =>
      products r.2 = products s ∧ skipped_urls r.2 = skipped_urls s ∧
      r.1 = if isinstance_Exception e then Ok tt else Raise e
  end.
Proof.
  pose proof (render_frame url s) as [(Hp & Hk & Hf1 & Hf2) Hc].
  unfold ProductScr.scrape_item, try_except. rewrite item_body_unfold.
  destruct (render url s) as [[soup|e] s1]; simpl in *.
  - pose proof (record_spec url category soup s1) as (Hok & _ & Hc' & Hf1' & Hf2' & H).
    destruct (record _ _ _ _) as [r s']; simpl in *. subst r.
    simpl. rewrite Hc', Hf1', Hf2'. repeat split; try done.
    destruct (found _); destruct H as [-> ->]; by rewrite ?Hp, ?Hk.
  - destruct (isinstance_Exception e); cbn; done.
Qed.

Lemma scrape_all_cons url category items s :
  scrape_all ((url, category) :: items) s =
  match scrape_item url category s with
  | (Ok _, s') => scrape_all items s'
  | (Raise e, s') => (Raise e, s')
  end.
Proof. reflexivity. Qed.

Lemma scrape_all_app (l1 l2 : list (cell * cell)) s :
  scrape_all (l1 ++ l2) s =
  match scrape_all l1 s with
  | (Ok _, s1) => scrape_all l2 s1
  | (Raise e, s1) => (Raise e, s1)
  end.
Proof.
  revert s. induction l1 as [|[u c] l1 IH]; intros s; [done|].
  rewrite <- app_comm_cons, !scrape_all_cons.
  destruct (scrape_item u c s) as [[[]|e] s']; [apply IH | done].
Qed.

(** The loop only appends: to the two tables and to the journal, where it
    records a request for every item it processes and nothing else. *)
Lemma scrape_all_grows (items : list (cell * cell)) s :
  let r := scrape_all items s in
  ∃ ps ks (reached : list (cell * cell)),
    products r.2 = products s ++ ps ∧
    skipped_urls r.2 = skipped_urls s ++ ks ∧
    calls r.2 = calls s ++ map (λ i, Get i.1) reached ∧
    (reached `prefix_of` items) ∧
    (r.1 = Ok tt → reached = items) ∧
    product_data_csv r.2 = product_data_csv s ∧
    product_skipped_csv r.2 = product_skipped_csv s.
Proof.
  revert s. induction items as [|[u c] items IH]; intros s.
  { exists [], [], []. cbn. rewrite !app_nil_r. done. }
  cbn zeta. rewrite scrape_all_cons.
  pose proof (scrape_item_spec u c s) as (Hc & Hf1 & Hf2 & H).
  assert (∃ ps ks, products (scrape_item u c s).2 = products s ++ ps ∧
                   skipped_urls (scrape_item u c s).2 = skipped_urls s ++ ks)
    as (ps & ks & Hp & Hk).
  { destruct (render u s) as [[soup|e] s1].
    - destruct H as [_ H]. destruct (found _); destruct H as [-> ->].
      + eexists [], [_]. by rewrite app_nil_r.
      + eexists [_], []. by rewrite app_nil_r.
    - destruct H as (-> & -> & _). exists [], []. by rewrite !app_nil_r. }
  destruct (scrape_item u c s) as [[[]|e] s']; simpl in *.
  - destruct (IH s') as (ps' & ks' & reached & Hp' & Hk' & Hc' & Hpre & Hall & Hf1' & Hf2').
    exists (ps ++ ps'), (ks ++ ks'), ((u, c) :: reached).
    rewrite Hp', Hk', Hc', Hp, Hk, Hc, Hf1', Hf2', <- !app_assoc. cbn.
    repeat split; try done.
    + by apply prefix_cons.
    + intros Hr. by rewrite Hall.
  - exists ps, ks, [(u, c)]. cbn. repeat split; try done.
    by apply prefix_cons, prefix_nil.
Qed.

Lemma select_cons o (i : cell * cell) items v os :
  select o (i :: items) (v :: os) =
  (if bool_decide (v = o) then [i] else []) ++ select o items os.
Proof. unfold select. cbn. by destruct (bool_decide (v = o)). Qed.

Lemma select_neither o (items : list (cell * cell)) :
  o ≠ ToNeither → select o items (map (λ _, ToNeither) items) = [].
Proof.
  intros Ho. induction items as [|i items IH]; [done|].
  cbn [map]. rewrite select_cons, IH.
  by rewrite bool_decide_eq_false_2.
Qed.

Lemma select_elem_of o (items : list (cell * cell)) os i :
  i ∈ select o items os → i ∈ items.
Proof.
  revert os. induction items as [|j items IH]; intros [|v os]; try by inversion 1.
  rewrite select_cons, elem_of_app. intros [Hi|Hi].
  - case_bool_decide; [|by apply elem_of_nil in Hi].
    apply list_elem_of_singleton in Hi as ->. apply list_elem_of_here.
  - by apply list_elem_of_further, (IH os).
Qed.

(** No item is selected twice: the two selections together are no longer
    than the list of outcomes. *)
Lemma select_disjoint_length (items : list (cell * cell)) os :
  length (select ToProducts items os) + length (select ToSkipped items os)
  ≤ length os.
Proof.
  revert os. induction items as [|j items IH]; intros [|v os]; [cbn; lia..|].
  rewrite !select_cons, !length_app. specialize (IH os).
  destruct v; repeat case_bool_decide; try done; cbn; lia.
Qed.

Lemma zip_map_rows (rows : list row) :
  zip (map row_URL rows) (map row_category rows)
  = map (λ r, (row_URL r, row_category r)) rows.
Proof. induction rows as [|r rows IH]; [done|]. cbn. by rewrite IH. Qed.

Lemma outcomes_length (items : list (cell * cell)) s :
  length (outcomes B BeautifulSoup items s) = length items.
Proof.
  revert s. induction items as [|[u c] items IH]; intros s; [done|].
  cbn. destruct (ProductScr.scrape_item _ _ _ _ _) as [[[]|e] s'].
  - by rewrite IH.
  - by rewrite length_map.
Qed.

(** The rows the loop appends are the items selected by their outcomes. *)
Lemma scrape_all_outcomes (items : list (cell * cell)) s :
  let final := (scrape_all items s).2 in
  let os := outcomes B BeautifulSoup items s in
  map product_key (products final) =
    map product_key (products s) ++ select ToProducts items os ∧
  map skipped_key (skipped_urls final) =
    map skipped_key (skipped_urls s) ++ select ToSkipped items os.
Proof.
  revert s. induction items as [|[u c] items IH]; intros s.
  { cbn. by rewrite !app_nil_r. }
  cbn zeta. rewrite scrape_all_cons. cbn [outcomes fst snd].
  rewrite !select_cons.
  pose proof (scrape_item_spec u c s) as (_ & _ & _ & H).
  unfold outcome_of. cbn zeta in H.
  destruct (render u s) as [[soup|e] s1].
  - destruct H as [Hok H].
    destruct (scrape_item u c s) as [[[]|e] s'] eqn:Hi; simpl in *; [|done].
    destruct (IH s') as [-> ->].
    destruct (found _); destruct H as [-> ->];
      rewrite ?map_app, <- ?app_assoc; done.
  - destruct H as (Hp & Hk & Hr).
    destruct (scrape_item u c s) as [[[]|e'] s'] eqn:Hi; simpl in *.
    + destruct (IH s') as [-> ->]. by rewrite Hp, Hk.
    + rewrite !select_neither by done. by rewrite Hp, Hk, !app_nil_r.
Qed.

Lemma driver_quit_spec s :
  let r := driver_quit B s in
  same_tables s r.2 ∧ calls r.2 = calls s ++ [Quit].
Proof.
  unfold same_tables, driver_quit, journal, session, bind, modify. cbn.
  destruct (drv_quit B (driver s)) as [[[]|e] w]; done.
Qed.

Lemma main_unfold urls categories s :
  main urls categories s =
  let s0 := set_skipped_urls [] (set_products [] s) in
  match scrape_all (zip urls categories) s0 with
  | (r, s1) =>
      match driver_quit B s1 with
      | (Ok _, s2) =>
          match r with
          | Ok _ =>
              (Ok tt, set_stdout (stdout (write_csv s2) ++ [ScrapingComplete])
                        (write_csv s2))
          | Raise e => (Raise e, s2)
          end
      | (Raise e, s2) => (Raise e, s2)
      end
  end.
Proof.
  unfold ProductScr.main, try_finally, bind, modify, print. cbn zeta beta.
  destruct (ProductScr.scrape_all _ _ _ _) as [r s1].
  destruct (driver_quit B s1) as [[[]|e] s2]; [|done].
  by destruct r.
Qed.

(** [main] is its loop, then the release of the session, then the two
    files when nothing was raised. *)
Lemma main_spec urls categories s :
  let s0 := set_skipped_urls [] (set_products [] s) in
  let loop := scrape_all (zip urls categories) s0 in
  let r := main urls categories s in
  products r.2 = products loop.2 ∧
  skipped_urls r.2 = skipped_urls loop.2 ∧
  calls r.2 = calls loop.2 ++ [Quit] ∧
  match r.1 with
  | Ok _ =>
      loop.1 = Ok tt ∧
      product_data_csv r.2 = Some (products r.2) ∧
      product_skipped_csv r.2 = Some (skipped_urls r.2)
  | Raise _ =>
      product_data_csv r.2 = product_data_csv s ∧
      product_skipped_csv r.2 = product_skipped_csv s
  end.
Proof.
  cbn zeta. rewrite main_unfold. cbn zeta.
  set (s0 := set_skipped_urls [] (set_products [] s)).
  pose proof (scrape_all_grows (zip urls categories) s0)
    as (ps & ks & reached & _ & _ & _ & _ & _ & Hf1 & Hf2).
  destruct (ProductScr.scrape_all _ _ _ s0) as [r s1]; simpl in *.
  pose proof (driver_quit_spec s1) as [(Hp & Hk & Hq1 & Hq2) Hc].
  destruct (driver_quit B s1) as [[[]|e] s2]; simpl in *.
  - destruct r as [[]|e]; cbn; rewrite ?Hp, ?Hk, ?Hc, ?Hq1, ?Hq2; done.
  - rewrite Hq1, Hq2. done.
Qed.

End product_scr_facts.

Section product_scr_claims.
Import Py ProductScr ProductSpec.
Context {W : Type} (B : WebDriver W) (BeautifulSoup : string → Soup.node).

(** C1, as amended: an exception that is an instance of [Exception],
    raised by the body of the iteration of item k, is caught by that
    iteration, which leaves the product table and the skipped table as
    they were; the loop goes on with the items behind k, and each of them
    that it reaches is requested and, once rendered, recorded. *)
Theorem per_item_isolation before url category after
    (s s1 s2 : state (W:=W)) (e : exc) :
  scrape_all B BeautifulSoup before s = (Ok tt, s1) →
  item_body B BeautifulSoup url category s1 = (Raise e, s2) →
  isinstance_Exception e = true →
  isolated B BeautifulSoup before url category after s s1.
Proof.
  intros Hbefore Hbody He. apply item_body_raise in Hbody.
  pose proof (scrape_item_spec B BeautifulSoup url category s1) as (_ & _ & _ & H).
  rewrite Hbody, He in H. destruct H as (Hp & Hk & Hr).
  assert (scrape_all B BeautifulSoup (before ++ (url, category) :: after) s
          = scrape_all B BeautifulSoup after
              (scrape_item B BeautifulSoup url category s1).2) as Hgo.
  { rewrite scrape_all_app, Hbefore, scrape_all_cons.
    by destruct (scrape_item _ _ _ _ _) as [[[]|e'] s3]. }
  unfold isolated. cbn zeta. rewrite Hgo.
  set (s3 := (scrape_item B BeautifulSoup url category s1).2) in *.
  split_and!; [done..|].
  intros mid url' category' rest s4 -> Hmid.
  rewrite scrape_all_app, Hmid, scrape_all_cons.
  pose proof (scrape_item_spec B BeautifulSoup url' category' s4) as (Hc & _ & _ & Hi).
  destruct (scrape_item B BeautifulSoup url' category' s4) as [r6 s6] eqn:Hs6.
  simpl in Hc, Hi.
  set (final := (match r6 with
                 | Ok _ => scrape_all B BeautifulSoup rest s6
                 | Raise e0 => (Raise e0, s6)
                 end).2).
  assert (∃ ps ks cs, products final = products s6 ++ ps ∧
            skipped_urls final = skipped_urls s6 ++ ks ∧
            calls final = calls s6 ++ cs) as (ps & ks & cs & Hps & Hks & Hcs).
  { unfold final. destruct r6 as [[]|e6].
    - destruct (scrape_all_grows B BeautifulSoup rest s6)
        as (ps & ks & cs & ? & ? & ? & _).
      by eexists ps, ks, _.
    - exists [], [], []. by rewrite !app_nil_r. }
  split.
  - rewrite Hcs, Hc. set_solver.
  - intros soup s5 Hrender. rewrite Hrender in Hi. destruct Hi as [_ Hi].
    destruct (found _); destruct Hi as [Hi1 Hi2].
    + rewrite Hks, Hi2. set_solver.
    + rewrite Hps, Hi1. set_solver.
Qed.



(** C9: a row of the input table whose URL is empty is not among the items
    of the loop, which are the rows that have a URL, in their order; the
    run requests nothing from the browser for it and it is in neither
    table at the end of the run. *)
Theorem empty_url_filtering (csv : list row) (s : state (W:=W)) (r : row) :
  r ∈ csv → row_URL r = NaN →
  let data := dropna_URL csv in
  let items := zip (map row_URL data) (map row_category data) in
  let final := (script B BeautifulSoup csv s).2 in
  items = map (λ r, (row_URL r, row_category r))
            (List.filter (λ r, notna (row_URL r)) csv) ∧
  ((row_URL r, row_category r) ∉ items) ∧
  (∃ reached, calls final = calls s ++ map (λ i, Get i.1) reached ++ [Quit] ∧
              (reached `prefix_of` items) ∧
              Get (row_URL r) ∉ map (λ i : cell * cell, Get i.1) reached) ∧
  ((row_URL r, row_category r) ∉ map product_key (products final)) ∧
  (row_URL r, row_category r) ∉ map skipped_key (skipped_urls final).
Proof.
  intros _ Hnan. cbn zeta. unfold ProductScr.script, dropna_URL.
  rewrite zip_map_rows.
  set (items := map _ (List.filter _ csv)).
  assert (∀ i, i ∈ items → notna i.1 = true) as Hitems.
  { intros i Hi. apply list_elem_of_In, in_map_iff in Hi as (r' & <- & Hr').
    by apply filter_In in Hr' as [_ ?]. }
  assert ((row_URL r, row_category r) ∉ items) as Hnot.
  { intros Hin. apply Hitems in Hin. by rewrite Hnan in Hin. }
  pose proof (main_spec B BeautifulSoup (map row_URL (List.filter (λ r, notna (row_URL r)) csv))
                (map row_category (List.filter (λ r, notna (row_URL r)) csv)) s)
    as (Hp & Hk & Hc & _).
  rewrite zip_map_rows in Hp, Hk, Hc. fold items in Hp, Hk, Hc.
  set (s0 := set_skipped_urls [] (set_products [] s)) in *.
  pose proof (scrape_all_grows B BeautifulSoup items s0)
    as (ps & ks & reached & _ & _ & Hcalls & Hpre & _).
  pose proof (scrape_all_outcomes B BeautifulSoup items s0) as [Hps Hks].
  cbn zeta in *. split_and!; [done..| | |].
  - exists reached. rewrite Hc, Hcalls, <- app_assoc. split_and!; [done..|].
    intros Hin. apply list_elem_of_In, in_map_iff in Hin as (i & [= Hi] & Hin).
    apply list_elem_of_In in Hin.
    destruct Hpre as [k ->]. assert (i ∈ reached ++ k) as Hin' by set_solver.
    apply Hitems in Hin'. by rewrite Hi, Hnan in Hin'.
  - rewrite Hp, Hps. cbn. intros Hin. by apply select_elem_of in Hin.
  - rewrite Hk, Hks. cbn. intros Hin. by apply select_elem_of in Hin.
Qed.

(** C10: in every run each item of the input has one outcome, by which it
    is in one table at most: the product table holds the items whose page
    was rendered without the marker, the skipped table those whose page
    was rendered with it, both in the order of the input, and an item
    whose processing raised is in neither.  The two files are these
    tables when the run ends without an exception, and are not written
    otherwise. *)
Theorem output_disjointness urls categories (s : state (W:=W)) :
  let items := zip urls categories in
  let s0 := set_skipped_urls [] (set_products [] s) in
  let os := outcomes B BeautifulSoup items s0 in
  let r := main B BeautifulSoup urls categories s in
  length os = length items ∧
  map product_key (products r.2) = select ToProducts items os ∧
  map skipped_key (skipped_urls r.2) = select ToSkipped items os ∧
  length (products r.2) + length (skipped_urls r.2) ≤ length items ∧
  match r.1 with
  | Ok _ =>
      product_data_csv r.2 = Some (products r.2) ∧
      product_skipped_csv r.2 = Some (skipped_urls r.2)
  | Raise _ =>
      product_data_csv r.2 = product_data_csv s ∧
      product_skipped_csv r.2 = product_skipped_csv s
  end.
Proof.
  cbn zeta.
  pose proof (main_spec B BeautifulSoup urls categories s) as (Hp & Hk & _ & Hf).
  pose proof (scrape_all_outcomes B BeautifulSoup (zip urls categories)
                (set_skipped_urls [] (set_products [] s))) as [Hps Hks].
  cbn zeta in *. rewrite <- Hp in Hps. rewrite <- Hk in Hks.
  change (map product_key (products (set_skipped_urls [] (set_products [] s))))
    with (@nil (cell * cell)) in Hps.
  change (map skipped_key (skipped_urls (set_skipped_urls [] (set_products [] s))))
    with (@nil (cell * cell)) in Hks.
  rewrite app_nil_l in Hps, Hks.
  split_and!; [apply outcomes_length | done | done | |].
  - rewrite <- (length_map product_key), <- (length_map skipped_key (skipped_urls _)).
    rewrite Hps, Hks, <- (outcomes_length B BeautifulSoup (zip urls categories)
      (set_skipped_urls [] (set_products [] s))).
    apply select_disjoint_length.
  - destruct (main B BeautifulSoup urls categories s).1; tauto.
Qed.

End product_scr_claims.

Section product_scr_examples.
Import Py ProductScr ProductSpec ProductDemo.

Example demo_run :
  let final := (script browser parse table start).2 in
  (script browser parse table start).1 = Ok tt ∧
  products final =
    [{| Category := skincare; URL := Text cream_url; Brand := Some "Acme";
        Product_Name := Some "Night Cream"; Ingredients := Some "Water Glycerin" |};
     {| Category := skincare; URL := Text mask_url; Brand := None;
        Product_Name := Some "Clay Mask"; Ingredients := None |}] ∧
  skipped_urls final =
    [{| skipped_Category := skincare; skipped_URL := Text gone_url |}] ∧
  calls final = [Get (Text cream_url); Get (Text gone_url); Get (Text mask_url); Quit].
Proof. vm_compute. done. Qed.

(** The isolation theorem at work: the body of the second item never
    comes, the third item is scraped all the same. *)
Lemma per_item_isolation_witness :
  isolated browser parse
    [(Text cream_url, skincare)] (Text slow_url) skincare [(Text mask_url, skincare)]
    start (scrape_all browser parse [(Text cream_url, skincare)] start).2.
Proof.
  eapply (per_item_isolation browser parse _ _ _ _ start _ _ TimeoutException).
  - vm_compute. reflexivity.
  - vm_compute. reflexivity.
  - reflexivity.
Defined.

(** C1 as stated, for any exception, fails: an interrupt from the keyboard
    while the page of the first item loads is not an [Exception]; it
    leaves the loop, and the second item, whose page renders, is never
    requested. *)
Lemma isolation_fails_for_interrupts :
  item_body browser parse (Text busy_url) skincare start
    = (Raise KeyboardInterrupt,
       (item_body browser parse (Text busy_url) skincare start).2) ∧
  (scrape_all browser parse
     [(Text busy_url, skincare); (Text mask_url, skincare)] start).1
    = Raise KeyboardInterrupt ∧
  calls (scrape_all browser parse
     [(Text busy_url, skincare); (Text mask_url, skincare)] start).2
    = [Get (Text busy_url)] ∧
  (main browser parse [Text busy_url; Text mask_url] [skincare; skincare] start).1
    = Raise KeyboardInterrupt ∧
  product_data_csv
    (main browser parse [Text busy_url; Text mask_url] [skincare; skincare] start).2
    = None ∧
  ¬ per_item_isolation_for (λ _, True).
Proof.
  split_and!; [vm_compute; reflexivity..|].
  intros H.
  specialize (H _ browser parse [] (Text busy_url) skincare
                [(Text mask_url, skincare)] start start _ KeyboardInterrupt
                eq_refl eq_refl I).
  destruct H as [H _]. vm_compute in H. discriminate.
Qed.



Lemma empty_url_filtering_witness :
  let final := (script browser parse table start).2 in
  ((NaN, skincare) ∉ map product_key (products final)) ∧
  (NaN, skincare) ∉ map skipped_key (skipped_urls final).
Proof.
  pose proof (empty_url_filtering browser parse table start
                {| row_category := skincare; row_URL := NaN |}) as H.
  cbn zeta in H. apply H.
  - vm_compute. apply list_elem_of_further, list_elem_of_here.
  - reflexivity.
Defined.

End product_scr_examples.

(** * Properties of the link collector *)

(** ** The counter of the scroll loop, on its own *)

Section scroll_counter.
Import SephoraScr SephoraSpec.

Lemma last_cons_default {A} (x d : A) l : List.last (x :: l) d = List.last l x.
Proof.
  revert x d. induction l as [|y l IH]; intros x d; [done|].
  change (List.last (x :: y :: l) d) with (List.last (y :: l) d).
  by rewrite (IH y d), (IH y x).
Qed.

Lemma attempts_snoc prev a cs c :
  attempts prev a (cs ++ [c]) =
  if bool_decide (c = List.last cs prev) then S (attempts prev a cs) else 0.
Proof.
  revert prev a. induction cs as [|c0 cs IH]; intros prev a; [done|].
  cbn [app attempts]. by rewrite IH, last_cons_default.
Qed.

Lemma exits_attempts prev a cs :
  exits prev a cs ↔
  7 ≤ attempts prev a cs ∧ ∀ m, m < length cs → attempts prev a (take m cs) < 7.
Proof.
  revert prev a. induction cs as [|c cs IH]; intros prev a; cbn [exits attempts].
  - split; [intros H; split; [lia | cbn; lia] | lia].
  - rewrite IH. split.
    + intros (Ha & Hge & Hlt). split; [done|]. intros [|m] Hm; [done|].
      cbn. apply Hlt. cbn in Hm. lia.
    + intros (Hge & Hlt). split_and!; [|done|].
      * apply (Hlt 0). cbn. lia.
      * intros m Hm. apply (Hlt (S m)). cbn. lia.
Qed.

Lemma last_take_lookup (l : list Z) n d :
  List.last (take (S n) l) d = default d (l !! n) ∨ length l ≤ n.
Proof.
  revert l. induction n as [|n IH]; intros [|x l]; cbn; try (right; lia).
  - left. by destruct l.
  - destruct l as [|y l]; [right; cbn; lia|].
    destruct (IH (y :: l)) as [H|H]; [left; exact H | right; cbn in *; lia].
Qed.

(** The counter behind the first [n] reads is the length of the run of
    unchanged reads that ends there. *)
Lemma attempts_unchanged (l : list Z) n k :
  Forall (λ c, (0 ≤ c)%Z) l → n ≤ length l →
  k ≤ attempts (-1) 0 (take n l) ↔ k ≤ n ∧ ∀ i, n - k ≤ i < n → unchanged l i.
Proof.
  intros Hpos. revert k. induction n as [|n IH]; intros k Hn.
  { cbn. split; [intros ?; split; [done | lia] | lia]. }
  destruct (lookup_lt_is_Some_2 l n) as [x Hx]; [lia|].
  rewrite (take_S_r _ _ _ Hx), attempts_snoc.
  assert (bool_decide (x = List.last (take n l) (-1)%Z) = true ↔ unchanged l n) as Hu.
  { rewrite bool_decide_eq_true. destruct n as [|j]; cbn [unchanged].
    - cbn. split; [|done]. intros ->.
      eapply Forall_lookup_1 in Hpos; [|done]. rewrite take_0 in Hpos. cbn in Hpos. lia.
    - destruct (last_take_lookup l j (-1)%Z) as [->|?]; [|lia].
      destruct (lookup_lt_is_Some_2 l j) as [y Hy]; [lia|]. rewrite Hy. cbn.
      split; [intros ->; eauto | intros (c & [= ->] & ?); congruence]. }
  destruct k as [|k].
  { split; [intros _; split; [lia|]; intros; lia | lia]. }
  destruct (bool_decide _) eqn:Hb.
  - assert (unchanged l n) as Hun by by apply Hu.
    rewrite <- Nat.succ_le_mono, (IH k) by lia.
    split; intros [Hk Hrun]; (split; [lia|]); intros i Hi.
    + destruct (decide (i = n)) as [->|]; [done | apply Hrun; lia].
    + apply Hrun. lia.
  - split; [lia|]. intros [_ Hrun].
    assert (unchanged l n) as Hn' by (apply Hrun; lia).
    by apply Hu in Hn'.
Qed.

Lemma stable_after_attempts (l : list Z) n :
  Forall (λ c, (0 ≤ c)%Z) l → n ≤ length l →
  stable_after l n ↔ 7 ≤ attempts (-1) 0 (take n l).
Proof.
  intros Hpos Hn. rewrite (attempts_unchanged l n 7) by done.
  unfold stable_after. intuition lia.
Qed.

(** On counts that are not negative the loop ends behind [cs] exactly when
    [cs] is the shortest sequence of reads whose last seven are unchanged. *)
Lemma exits_first_stable (cs : list Z) :
  Forall (λ c, (0 ≤ c)%Z) cs →
  exits (-1) 0 cs ↔
  stable_after cs (length cs) ∧ ∀ m, m < length cs → ¬ stable_after cs m.
Proof.
  intros Hpos. rewrite exits_attempts.
  rewrite (stable_after_attempts cs (length cs)), firstn_all by done.
  split; intros [Hge Hlt]; (split; [done|]); intros m Hm.
  - rewrite stable_after_attempts by (done || lia). specialize (Hlt m Hm). lia.
  - specialize (Hlt m Hm). rewrite stable_after_attempts in Hlt by (done || lia). lia.
Qed.

End scroll_counter.

(** ** The scroll loop against what the browser shows *)

Section scroll_loop_facts.
Import Py SephoraScr SephoraSpec.
Context {W : Type} (B : WebDriver W).

Local Abbreviation state := (SephoraScr.state (W:=W)).

Lemma scroll_loop_step fuel prev a b (s : state) :
  a < 7 →
  scroll_loop B (S fuel) prev a b s =
  match look B s with
  | Some (Ok product_blocks, s1) =>
      let current_count := Z.of_nat (length product_blocks) in
      scroll_loop B fuel current_count (count_step prev a current_count).2
        product_blocks s1
  | Some (Raise e, s1) => Some (Raise e, s1)
  | None => None
  end.
Proof.
  intros Ha. cbn [scroll_loop]. rewrite bool_decide_eq_true_2 by done.
  unfold look, bindW, session, sleep, total, modify, retW. cbn.
  destruct (drv_find_elements_css B _ _) as [[pb|e] w1]; [|done]. cbn.
  by destruct (drv_scroll_by B _ _ _) as [[[]|e] w2].
Qed.

Lemma scroll_loop_done fuel prev a b (s : state) :
  ¬ a < 7 → scroll_loop B fuel prev a b s = Some (Ok b, s).
Proof.
  intros Ha. destruct fuel; cbn [scroll_loop]; by rewrite bool_decide_eq_false_2.
Qed.

Lemma observe_step n (s : state) :
  observe B (S n) s =
  match look B s with
  | Some (Ok product_blocks, s1) =>
      match observe B n s1 with
      | Some (Ok rest, s2) => Some (Ok (product_blocks :: rest), s2)
      | Some (Raise e, s2) => Some (Raise e, s2)
      | None => None
      end
  | Some (Raise e, s1) => Some (Raise e, s1)
  | None => None
  end.
Proof.
  cbn [observe]. unfold bindW at 1.
  destruct (look B s) as [[[pb|e] s1]|]; [|done..].
  unfold bindW, retW. by destruct (observe B n s1) as [[[rest|e] s2]|].
Qed.

(** The loop ends with the blocks of its last count, behind exactly the
    counts that make its counter reach seven. *)
Lemma scroll_loop_exits fuel prev a b (s : state) b' s' :
  scroll_loop B fuel prev a b s = Some (Ok b', s') ↔
  ∃ obs, length obs ≤ fuel ∧
         observe B (length obs) s = Some (Ok obs, s') ∧
         List.last obs b = b' ∧
         exits prev a (counts obs).
Proof.
  revert prev a b s. induction fuel as [|fuel IH]; intros prev a b s.
  - destruct (decide (a < 7)) as [Ha|Ha].
    + cbn [scroll_loop]. rewrite bool_decide_eq_true_2 by done. split; [done|].
      intros (obs & Hlen & _ & _ & Hex). destruct obs; [|cbn in Hlen; lia].
      by cbn in Hex.
    + rewrite scroll_loop_done by done. split.
      * intros [= <- <-]. exists []. split_and!; [cbn; lia | done..].
      * intros (obs & Hlen & Hobs & Hlast & _).
        destruct obs; [|cbn in Hlen; lia]. cbn in Hobs, Hlast.
        unfold retW in Hobs. congruence.
  - destruct (decide (a < 7)) as [Ha|Ha].
    + rewrite scroll_loop_step by done.
      destruct (look B s) as [[[pb|e] s1]|] eqn:Hlook.
      * cbn zeta. rewrite IH. split.
        -- intros (obs & Hlen & Hobs & Hlast & Hex). exists (pb :: obs).
           cbn [length]. rewrite observe_step, Hlook, Hobs, last_cons_default.
           split_and!; [lia | done | done | by split].
        -- intros (obs & Hlen & Hobs & Hlast & Hex).
           destruct obs as [|pb' obs]; [by destruct Hex|].
           cbn [length] in Hlen, Hobs. rewrite observe_step, Hlook in Hobs.
           destruct (observe B (length obs) s1) as [[[rest|e] s2]|] eqn:Hrest;
             try done.
           injection Hobs as -> -> ->. destruct Hex as [_ Hex].
           exists obs. rewrite last_cons_default in Hlast.
           split_and!; [lia | done | done | done].
      * split; [done|]. intros (obs & _ & Hobs & _ & Hex).
        destruct obs as [|pb' obs]; [by destruct Hex|].
        cbn [length] in Hobs. by rewrite observe_step, Hlook in Hobs.
      * split; [done|]. intros (obs & _ & Hobs & _ & Hex).
        destruct obs as [|pb' obs]; [by destruct Hex|].
        cbn [length] in Hobs. by rewrite observe_step, Hlook in Hobs.
    + rewrite scroll_loop_done by done. split.
      * intros [= <- <-]. exists []. split_and!; [cbn; lia | done..].
      * intros (obs & _ & Hobs & Hlast & Hex).
        destruct obs as [|pb' obs]; [|by destruct Hex].
        cbn in Hobs, Hlast. unfold retW in Hobs. congruence.
Qed.

Lemma counts_nonneg obs : Forall (λ c, (0 ≤ c)%Z) (counts obs).
Proof. apply Forall_forall. intros c [pb [-> _]]%list_elem_of_fmap. lia. Qed.

(** C6: one more count that equals the one before it adds one to the
    counter and any other count sets it to zero; and from a fresh counter
    the loop ends, with the blocks of its last count, exactly behind the
    shortest sequence of counts of the browser whose last seven are
    unchanged, given fuel for that many counts. *)
Theorem scroll_stability fuel (s s' : state) product_blocks :
  (∀ previous_count scroll_attempts current_count,
     count_step previous_count scroll_attempts current_count =
     (current_count,
      if bool_decide (current_count = previous_count)
      then S scroll_attempts else 0)) ∧
  (scroll_loop B fuel (-1) 0 [] s = Some (Ok product_blocks, s') ↔
   ∃ obs, length obs ≤ fuel ∧
          observe B (length obs) s = Some (Ok obs, s') ∧
          last obs = Some product_blocks ∧
          stable_after (counts obs) (length obs) ∧
          ∀ m, m < length obs → ¬ stable_after (counts obs) m).
Proof.
  split; [done|]. rewrite scroll_loop_exits.
  split; intros (obs & Hlen & Hobs & Hlast & H); exists obs.
  - apply exits_first_stable in H; [|apply counts_nonneg].
    unfold counts in H. rewrite length_map in H. fold (counts obs) in H.
    destruct H as [Hst Hfirst]. split_and!; try done.
    destruct obs as [|pb obs] using rev_ind.
    { destruct Hst as [[? _] _]. cbn in *. lia. }
    rewrite last_snoc. rewrite last_last in Hlast. by subst.
  - assert (exits (-1) 0 (counts obs)) as Hex.
    { apply exits_first_stable; [apply counts_nonneg|].
      unfold counts. rewrite length_map. exact H. }
    split_and!; try done.
    destruct obs as [|pb obs] using rev_ind; [done|].
    rewrite last_snoc in Hlast. rewrite last_last. congruence.
Qed.

End scroll_loop_facts.

(** ** What each part of the script does to the store *)

Section sephora_scr_facts.
Import Py SephoraScr SephoraSpec.
Context {W : Type} (B : WebDriver W).

Local Abbreviation state := (SephoraScr.state (W:=W)).

Lemma quiet_refl (s : state) : quiet s s.
Proof. done. Qed.

Lemma quiet_trans (s1 s2 s3 : state) : quiet s1 s2 → quiet s2 s3 → quiet s1 s3.
Proof. unfold quiet. intros (-> & -> & ->) (-> & -> & ->). done. Qed.

Lemma session_quiet {A} (op : W → result A * W) (s s' : state) r :
  session op s = Some (r, s') → quiet s s'.
Proof. unfold session. destruct (op _). by intros [= <- <-]. Qed.

Lemma sleep_quiet ms (s s' : state) r :
  sleep B ms s = Some (r, s') → r = Ok tt ∧ quiet s s'.
Proof. by intros [= <- <-]. Qed.

Lemma look_quiet (s s' : state) r : look B s = Some (r, s') → quiet s s'.
Proof.
  unfold look, bindW, session, sleep, total, modify, retW. cbn.
  destruct (drv_find_elements_css B _ _) as [[pb|e] w1]; cbn; [|by intros [= <- <-]].
  destruct (drv_scroll_by B _ _ _) as [[[]|e] w2]; by intros [= <- <-].
Qed.

Lemma scroll_loop_quiet fuel prev a b (s s' : state) r :
  scroll_loop B fuel prev a b s = Some (r, s') → quiet s s'.
Proof.
  revert prev a b s. induction fuel as [|fuel IH]; intros prev a b s.
  - cbn. case_bool_decide; [done | by intros [= <- <-]].
  - destruct (decide (a < 7)) as [Ha|Ha].
    + rewrite scroll_loop_step by done.
      destruct (look B s) as [[[pb|e] s1]|] eqn:Hlook; [| |done].
      * intros H. apply IH in H. apply look_quiet in Hlook.
        by eapply quiet_trans.
      * intros [= <- <-]. by apply look_quiet in Hlook.
    + rewrite scroll_loop_done by done. by intros [= <- <-].
Qed.

(** Loading a page requests its URL, once, and leaves the table alone. *)
Lemma load_page_spec fuel base_url cat page (s s' : state) r :
  load_page B fuel base_url cat page s = Some (r, s') →
  final_df s' = final_df s ∧
  calls s' = calls s ++ [Get (page_url base_url cat page)] ∧
  product_urls_full_csv s' = product_urls_full_csv s.
Proof.
  unfold load_page, driver_get, journal, print, bindW at 1 2 3 4 5 6, session at 1 2,
    sleep, total, modify. cbn.
  destruct (drv_get B _ _) as [[[]|e] w1]; cbn; [|by intros [= <- <-]].
  destruct (drv_scroll_by B _ _ _) as [[[]|e] w2]; cbn; [|by intros [= <- <-]].
  intros H. by apply scroll_loop_quiet in H as (-> & -> & ->).
Qed.

Lemma fresh_rows_nil cat seen : fresh_rows cat seen [].
Proof. split_and!; [done | constructor | by intros l ?%elem_of_nil]. Qed.

Lemma fresh_rows_app cat seen new1 new2 :
  fresh_rows cat seen new1 →
  fresh_rows cat (seen ∪ list_to_set (map URL new1)) new2 →
  fresh_rows cat seen (new1 ++ new2).
Proof.
  intros (Hc1 & Hd1 & Hs1) (Hc2 & Hd2 & Hs2). split_and!.
  - by apply Forall_app.
  - rewrite map_app. apply NoDup_app. split_and!; [done| |done].
    intros u Hu1 Hu2. apply list_elem_of_fmap in Hu2 as (l & -> & Hl).
    apply Hs2 in Hl. set_solver.
  - intros l [Hl|Hl]%elem_of_app; [by apply Hs1|].
    apply Hs2 in Hl. set_solver.
Qed.

Lemma collected_quiet cat seen (s s' : state) :
  quiet s s' → collected cat seen s (Ok seen, s').
Proof.
  intros (Hf & Hc & Hcsv). exists []. cbn. rewrite app_nil_r.
  split_and!; [done | apply fresh_rows_nil | done | done | set_solver].
Qed.

Lemma collected_raise cat seen (s s' : state) e :
  quiet s s' → collected cat seen s (Raise e, s').
Proof.
  intros (Hf & Hc & Hcsv). exists []. cbn. rewrite app_nil_r.
  split_and!; [done | apply fresh_rows_nil | done..].
Qed.

Lemma collected_trans cat seen (s s1 : state) seen1 o :
  collected cat seen s (Ok seen1, s1) →
  collected cat seen1 s1 o →
  collected cat seen s o.
Proof.
  intros (new1 & Hf1 & Hfr1 & Hc1 & Hcsv1 & Hs1) (new2 & Hf2 & Hfr2 & Hc2 & Hcsv2 & Hs2).
  cbn in *. subst seen1. exists (new1 ++ new2).
  rewrite Hf2, Hf1, Hc2, Hc1, Hcsv2, Hcsv1, app_assoc.
  split_and!; [done | by apply fresh_rows_app | done | done |].
  destruct o.1; [|done]. rewrite map_app, list_to_set_app_L. set_solver.
Qed.

Lemma collected_after_quiet cat seen (s s1 : state) o :
  quiet s s1 → collected cat seen s1 o → collected cat seen s o.
Proof. intros Hq. apply collected_trans. by apply collected_quiet. Qed.

Lemma for_fold_collected {X} cat (body : X → gset string → MW state (gset string)) l :
  (∀ x seen s o, body x seen s = Some o → collected cat seen s o) →
  ∀ seen s o, for_fold l body seen s = Some o → collected cat seen s o.
Proof.
  intros Hbody. induction l as [|x l IH]; intros seen s o.
  - intros [= <-]. by apply collected_quiet.
  - cbn [for_fold]. unfold bindW at 1.
    destruct (body x seen s) as [[[seen1|e] s1]|] eqn:Hx; [| |done].
    + intros H. apply IH in H. apply Hbody in Hx. by eapply collected_trans.
    + intros [= <-]. by apply Hbody in Hx.
Qed.

Lemma collect_anchor_collected cat anchor seen (s : state) o :
  collect_anchor B cat anchor seen s = Some o → collected cat seen s o.
Proof.
  unfold collect_anchor, bindW at 1.
  destruct (session _ s) as [[[href|e] s1]|] eqn:Hs; [| |done].
  - apply session_quiet in Hs. intros H.
    apply (collected_after_quiet _ _ _ _ _ Hs). clear Hs.
    destruct href as [href|]; [|injection H as <-; by apply collected_quiet].
    destruct (Str.truthy href && bool_decide (href ∉ seen)) eqn:Hnew;
      [|injection H as <-; by apply collected_quiet].
    apply andb_true_iff in Hnew as [_ Hnew%bool_decide_eq_true].
    injection H as <-. exists [{| category := cat; URL := href |}]. cbn.
    split_and!; try done; [|set_solver].
    split_and!; [by repeat constructor | apply NoDup_singleton |].
    by intros l ->%list_elem_of_singleton.
  - intros [= <-]. apply session_quiet in Hs. by apply collected_raise.
Qed.

Lemma collect_links_collected cat product_blocks seen (s : state) o :
  collect_links B cat product_blocks seen s = Some o → collected cat seen s o.
Proof.
  apply for_fold_collected. clear. intros block seen s o.
  unfold bindW at 1.
  destruct (session _ s) as [[[anchors|e] s1]|] eqn:Hs; [| |done].
  - apply session_quiet in Hs. intros H.
    apply (collected_after_quiet _ _ _ _ _ Hs).
    revert H. apply for_fold_collected. intros. by eapply collect_anchor_collected.
  - intros [= <-]. apply session_quiet in Hs. by apply collected_raise.
Qed.

(** One turn of the loop over the pages: one request, fresh rows. *)
Lemma scrape_page_spec fuel base_url cat page seen (s s' : state) r :
  scrape_page B fuel base_url cat page seen s = Some (r, s') →
  ∃ new, final_df s' = final_df s ++ new ∧
         fresh_rows cat seen new ∧
         calls s' = calls s ++ [Get (page_url base_url cat page)] ∧
         product_urls_full_csv s' = product_urls_full_csv s ∧
         match r with
         | Ok (Continue seen') => seen' = seen ∪ list_to_set (map URL new)
         | Ok Break => new = []
         | Raise _ => True
         end.
Proof.
  unfold scrape_page, bindW at 1.
  destruct (load_page B fuel base_url cat page s) as [[[pb|e] s1]|] eqn:Hload; [| |done].
  - apply load_page_spec in Hload as (Hf & Hc & Hcsv).
    unfold bindW at 1. cbn [print total modify].
    set (s2 := set_stdout _ s1).
    case_bool_decide.
    + intros [= <- <-]. exists []. cbn. rewrite app_nil_r.
      split_and!; [done | apply fresh_rows_nil | done..].
    + unfold bindW at 1.
      destruct (collect_links B cat pb seen s2) as [[[seen'|e] s3]|] eqn:Hcol; [| |done].
      * intros [= <- <-]. apply collect_links_collected in Hcol
          as (new & Hf' & Hfr & Hc' & Hcsv' & Hs). cbn in *.
        exists new. rewrite Hf', Hc', Hcsv', Hf. by split_and!.
      * intros [= <- <-]. apply collect_links_collected in Hcol
          as (new & Hf' & Hfr & Hc' & Hcsv' & Hs). cbn in *.
        exists new. rewrite Hf', Hc', Hcsv', Hf. by split_and!.
  - intros [= <- <-]. apply load_page_spec in Hload as (Hf & Hc & Hcsv).
    exists []. rewrite app_nil_r. split_and!; [done | apply fresh_rows_nil | done..].
Qed.



(** The loop over the pages requests a prefix of its pages, in their
    order, all of them when it is not left early, and appends fresh rows. *)
Lemma for_pages_spec fuel base_url cat (pages : list nat) seen (s s' : state) r :
  for_pages B fuel base_url cat pages seen s = Some (r, s') →
  ∃ k new, k ≤ length pages ∧
    calls s' = calls s ++ map (λ p, Get (page_url base_url cat p)) (take k pages) ∧
    final_df s' = final_df s ++ new ∧
    fresh_rows cat seen new ∧
    product_urls_full_csv s' = product_urls_full_csv s ∧
    (∀ seen', r = Ok (Continue seen') → k = length pages).
Proof.
  revert seen s. induction pages as [|p pages IH]; intros seen s.
  { intros [= <- <-]. exists 0, []. cbn. rewrite !app_nil_r.
    split_and!; [done.. | apply fresh_rows_nil | done | done]. }
  cbn [for_pages]. unfold bindW at 1.
  destruct (scrape_page B fuel base_url cat p seen s) as [[[f|e] s1]|] eqn:Hp; [| |done].
  - apply scrape_page_spec in Hp as (new1 & Hf1 & Hfr1 & Hc1 & Hcsv1 & Hr1).
    destruct f as [seen1|].
    + intros H. apply IH in H as (k & new2 & Hk & Hc2 & Hf2 & Hfr2 & Hcsv2 & Hall).
      subst seen1. exists (S k), (new1 ++ new2). cbn.
      rewrite Hc2, Hc1, Hf2, Hf1, Hcsv2, Hcsv1, <- !app_assoc.
      split_and!; [lia | done | done | by apply fresh_rows_app | done |].
      intros seen' Hr. by rewrite (Hall _ Hr).
    + intros [= <- <-]. subst new1. exists 1, []. cbn. rewrite take_0, Hf1.
      split_and!; [lia | done | done | apply fresh_rows_nil | done | done].
  - intros [= <- <-]. apply scrape_page_spec in Hp as (new1 & Hf1 & Hfr1 & Hc1 & Hcsv1 & _).
    exists 1, new1. cbn. rewrite take_0.
    split_and!; [lia | done..].
Qed.

(** One call of [scrape_all_paginated_products]: the pages 1 to k, for a
    k up to the cap, and fresh rows of its category. *)
Lemma scrape_category_spec fuel base_url cat max_pages (s s' : state) r :
  scrape_all_paginated_products B fuel base_url cat max_pages s = Some (r, s') →
  ∃ k new, k ≤ max_pages ∧
    calls s' = calls s ++ map (λ p, Get (page_url base_url cat p)) (seq 1 k) ∧
    final_df s' = final_df s ++ new ∧
    fresh_rows cat ∅ new ∧
    product_urls_full_csv s' = product_urls_full_csv s.
Proof.
  unfold scrape_all_paginated_products, bindW.
  destruct (for_pages B fuel base_url cat (seq 1 max_pages) ∅ s)
    as [[r' s1]|] eqn:Hpages; [|done].
  apply for_pages_spec in Hpages as (k & new & Hk & Hc & Hf & Hfr & Hcsv & _).
  rewrite length_seq in Hk. rewrite take_seq, Nat.min_l in Hc by done.
  intros H. assert (s' = s1) as -> by (destruct r'; unfold retW in H; congruence).
  by exists k, new.
Qed.

Lemma categories_nodup : NoDup categories.
Proof. by apply (bool_decide_unpack _). Qed.

Lemma fresh_rows_nodup cat seen new : fresh_rows cat seen new → NoDup new.
Proof. intros (_ & Hd & _). by apply NoDup_fmap_1 in Hd. Qed.

(** The loop over the categories: rows of these categories, no row twice,
    and no release of the session. *)
Lemma scrape_categories_spec fuel cats (s s' : state) r :
  scrape_categories B fuel cats s = Some (r, s') →
  NoDup cats →
  ∃ new cs, final_df s' = final_df s ++ new ∧
    NoDup new ∧ (∀ l, l ∈ new → category l ∈ cats) ∧
    calls s' = calls s ++ cs ∧ (Quit ∉ cs) ∧
    product_urls_full_csv s' = product_urls_full_csv s.
Proof.
  unfold scrape_categories.
  revert s. induction cats as [|c cats IH]; intros s.
  { intros [= <- <-] _. exists [], []. rewrite !app_nil_r.
    split_and!; [done | constructor | by intros l ?%elem_of_nil | done
                | by intros ?%elem_of_nil | done]. }
  cbn [for_fold]. unfold bindW at 1.
  destruct (scrape_all_paginated_products B fuel shop_url c 50 s) as [[[[]|e] s1]|] eqn:Hc;
    [| |done].
  - intros H [Hnotin Hnd]%NoDup_cons.
    apply scrape_category_spec in Hc as (k & new1 & _ & Hc1 & Hf1 & Hfr1 & Hcsv1).
    apply IH in H as (new2 & cs & Hf2 & Hnd2 & Hcat2 & Hc2 & Hq & Hcsv2); [|done].
    exists (new1 ++ new2), (map (λ p, Get (page_url shop_url c p)) (seq 1 k) ++ cs).
    rewrite Hf2, Hf1, Hc2, Hc1, Hcsv2, Hcsv1, <- !app_assoc.
    split_and!; try done.
    + apply NoDup_app. split_and!; [by eapply fresh_rows_nodup | | done].
      intros l Hl1 Hl2%Hcat2. destruct Hfr1 as (Hall & _).
      rewrite Forall_forall in Hall. rewrite (Hall l Hl1) in Hl2. done.
    + intros l [Hl|Hl]%elem_of_app.
      * destruct Hfr1 as (Hall & _). rewrite Forall_forall in Hall.
        rewrite (Hall l Hl). apply list_elem_of_here.
      * by apply list_elem_of_further, Hcat2.
    + intros [Hin|Hin]%elem_of_app; [|done].
      by apply list_elem_of_fmap in Hin as (p & ? & _).
  - intros [= <- <-] _.
    apply scrape_category_spec in Hc as (k & new1 & _ & Hc1 & Hf1 & Hfr1 & Hcsv1).
    exists new1, (map (λ p, Get (page_url shop_url c p)) (seq 1 k)).
    split_and!; try done.
    + by eapply fresh_rows_nodup.
    + intros l Hl. destruct Hfr1 as (Hall & _). rewrite Forall_forall in Hall.
      rewrite (Hall l Hl). apply list_elem_of_here.
    + by intros (p & ? & _)%list_elem_of_fmap.
Qed.

Lemma session_quit_spec (s : state) :
  ∃ r s', driver_quit B s = Some (r, s') ∧
          final_df s' = final_df s ∧ calls s' = calls s ++ [Quit] ∧
          product_urls_full_csv s' = product_urls_full_csv s.
Proof.
  unfold driver_quit, journal, session, bindW, total, modify. cbn.
  destruct (drv_quit B (driver s)) as [r w]. by eexists _, _.
Qed.

(** The script is the loop over the categories and then, when the loop
    has returned, the release of the session and the file. *)
Lemma script_unfold fuel (s : state) :
  script B fuel s =
  match scrape_categories B fuel categories (set_final_df [] s) with
  | Some (Ok _, s1) =>
      match driver_quit B s1 with
      | Some (Ok _, s2) => Some (Ok tt, write_csv s2)
      | o => o
      end
  | o => o
  end.
Proof.
  unfold script, bindW, total, modify. cbn.
  destruct (scrape_categories B fuel categories (set_final_df [] s))
    as [[[[]|e] s1]|]; try done.
Qed.

End sephora_scr_facts.


(** ** The claims about the link collector *)

Section sephora_scr_claims.
Import Py SephoraScr SephoraSpec.
Context {W : Type} (B : WebDriver W).

Local Abbreviation state := (SephoraScr.state (W:=W)).

(** C4, as amended: the set of the links seen is that of one call of
    [scrape_all_paginated_products], which is one category: the rows that
    a call appends to the table carry its category and no URL twice, on
    whatever page or block a link comes back.  Across categories nothing
    is promised. *)
Theorem deduplication_within_category fuel base_url cat max_pages (s s' : state) r :
  scrape_all_paginated_products B fuel base_url cat max_pages s = Some (r, s') →
  ∃ new, final_df s' = final_df s ++ new ∧
         Forall (λ l, category l = cat) new ∧
         NoDup (map URL new).
Proof.
  intros H. apply scrape_category_spec in H as (k & new & _ & _ & Hf & (Hc & Hd & _) & _).
  by exists new.
Qed.

(** C5: in the table of a run no (category, URL) row is twice, every row
    carries a category of the list, and the file that a run without
    exception writes is that table. *)
Theorem per_category_deduplication fuel (s s' : state) r :
  script B fuel s = Some (r, s') →
  NoDup (final_df s') ∧
  (∀ l, l ∈ final_df s' → category l ∈ categories) ∧
  match r with
  | Ok _ => product_urls_full_csv s' = Some (final_df s')
  | Raise _ => product_urls_full_csv s' = product_urls_full_csv s
  end.
Proof.
  rewrite script_unfold.
  destruct (scrape_categories B fuel categories (set_final_df [] s))
    as [[r1 s1]|] eqn:Hcats; [|done].
  apply scrape_categories_spec in Hcats
    as (new & cs & Hf & Hnd & Hcat & _ & _ & Hcsv); [|apply categories_nodup].
  cbn in Hf, Hcsv. subst new.
  destruct r1 as [[]|e]; [|by intros [= <- <-]].
  destruct (session_quit_spec B s1) as (r2 & s2 & -> & Hf2 & _ & Hcsv2).
  destruct r2 as [[]|e]; intros [= <- <-]; cbn; rewrite ?Hf2, ?Hcsv2; done.
Qed.


End sephora_scr_claims.

Section sephora_scr_examples.
Import Py SephoraScr SephoraSpec SephoraDemo.

Example shop_run :
  script (browser shop) 20 start =
  Some (Ok tt, store_of (script (browser shop) 20 start)) ∧
  final_df (store_of (script (browser shop) 20 start)) =
    [{| category := "cleanser"; URL := night_cream |};
     {| category := "cleanser"; URL := clay_mask |};
     {| category := "cleanser"; URL := lip_balm |};
     {| category := "face-mask"; URL := night_cream |}] ∧
  product_urls_full_csv (store_of (script (browser shop) 20 start)) =
    Some (final_df (store_of (script (browser shop) 20 start))).
Proof. vm_compute. done. Qed.

(** C4 as stated fails: the night cream, found under "cleanser", is
    appended again when it is found under "face-mask". *)
Lemma run_wide_deduplication_fails :
  script (browser shop) 20 start =
    Some (Ok tt, store_of (script (browser shop) 20 start)) ∧
  {| category := "cleanser"; URL := night_cream |}
    ∈ final_df (store_of (script (browser shop) 20 start)) ∧
  {| category := "face-mask"; URL := night_cream |}
    ∈ final_df (store_of (script (browser shop) 20 start)) ∧
  ¬ run_wide_deduplication.
Proof.
  split_and!.
  - vm_compute. reflexivity.
  - vm_compute. apply list_elem_of_here.
  - vm_compute. do 3 apply list_elem_of_further. apply list_elem_of_here.
  - intros H.
    specialize (H _ (browser shop) 20 start
                  (store_of (script (browser shop) 20 start)) (Ok tt)).
    assert (script (browser shop) 20 start =
            Some (Ok tt, store_of (script (browser shop) 20 start))) as Hrun
      by (vm_compute; reflexivity).
    apply H in Hrun. vm_compute in Hrun.
    apply NoDup_cons in Hrun as [Hnot _]. apply Hnot.
    do 2 apply list_elem_of_further. apply list_elem_of_here.
Qed.

Lemma deduplication_within_category_witness :
  ∃ new,
    final_df (store_of (scrape_all_paginated_products (browser shop) 20 shop_url
                          "cleanser" 50 start)) = final_df start ++ new ∧
    Forall (λ l, category l = "cleanser") new ∧
    NoDup (map URL new).
Proof.
  apply (deduplication_within_category (browser shop) 20 shop_url "cleanser" 50
           start _ (Ok tt)).
  vm_compute. reflexivity.
Defined.

Lemma per_category_deduplication_witness :
  NoDup (final_df (store_of (script (browser shop) 20 start))).
Proof.
  apply (per_category_deduplication (browser shop) 20 start _ (Ok tt)).
  vm_compute. reflexivity.
Defined.

(** The second page of cleansers shows 1, 3, 3 and then 4 blocks: the
    loop makes eleven counts, the last eight of which find 4 blocks. *)
Lemma scroll_stability_witness :
  let s := store_of (session (drv_get (browser shop) (page_url shop_url "cleanser" 2))
                       start) in
  ∃ obs, length obs ≤ 20 ∧
         observe (browser shop) (length obs) s =
           Some (Ok obs, store_of (scroll_loop (browser shop) 20 (-1) 0 [] s)) ∧
         last obs = Some [0; 1; 2; 3] ∧
         stable_after (counts obs) (length obs) ∧
         ∀ m, m < length obs → ¬ stable_after (counts obs) m.
Proof.
  cbn zeta.
  apply (proj1 (proj2 (scroll_stability (browser shop) 20 _ _ _))).
  vm_compute. reflexivity.
Defined.

Example scroll_counts :
  let s := store_of (session (drv_get (browser shop) (page_url shop_url "cleanser" 2))
                       start) in
  match observe (browser shop) 11 s with
  | Some (Ok obs, _) => counts obs = [1; 3; 3; 4; 4; 4; 4; 4; 4; 4; 4]%Z
  | _ => False
  end ∧
  store_of (observe (browser shop) 11 s)
    = store_of (scroll_loop (browser shop) 20 (-1) 0 [] s).
Proof. vm_compute. done. Qed.


End sephora_scr_examples.

(** * The release of the browser session, in both scripts *)

Section session_release.
Context {W1 : Type} (B1 : ProductScr.WebDriver W1) (BeautifulSoup : string → Soup.node).
Context {W2 : Type} (B2 : SephoraScr.WebDriver W2).

Lemma main_releases urls categories (s : ProductScr.state (W:=W1)) :
  ∃ cs, ProductScr.calls (ProductScr.main B1 BeautifulSoup urls categories s).2
          = ProductScr.calls s ++ cs ++ [ProductScr.Quit] ∧
        ProductScr.Quit ∉ cs.
Proof.
  pose proof (main_spec B1 BeautifulSoup urls categories s) as (_ & _ & Hc & _).
  pose proof (scrape_all_grows B1 BeautifulSoup (zip urls categories)
                (ProductScr.set_skipped_urls [] (ProductScr.set_products [] s)))
    as (ps & ks & reached & _ & _ & Hloop & _).
  cbn zeta in *. rewrite Hc, Hloop, <- app_assoc.
  eexists. split; [reflexivity|].
  by intros (i & ? & _)%list_elem_of_fmap.
Qed.

(** C2, as amended: the detail extractor releases the session at the end
    of every run, once, whether its loop has returned or an exception has
    left it: [driver.quit()] is in the [finally] block around the loop.
    The link collector has no such block: it releases the session, once,
    when the loop over the categories has returned, and when an exception
    leaves that loop the run ends with it and without a release. *)
Theorem session_release urls categories (s1 : ProductScr.state (W:=W1))
    fuel (s2 s2' : SephoraScr.state (W:=W2)) r :
  SephoraScr.script B2 fuel s2 = Some (r, s2') →
  (∃ cs, ProductScr.calls (ProductScr.main B1 BeautifulSoup urls categories s1).2
           = ProductScr.calls s1 ++ cs ++ [ProductScr.Quit] ∧
         ProductScr.Quit ∉ cs) ∧
  (∃ cs, (SephoraScr.Quit ∉ cs) ∧
     match SephoraScr.scrape_categories B2 fuel SephoraScr.categories
             (SephoraScr.set_final_df [] s2) with
     | Some (Py.Ok _, _) =>
         SephoraScr.calls s2' = SephoraScr.calls s2 ++ cs ++ [SephoraScr.Quit]
     | _ =>
         SephoraScr.calls s2' = SephoraScr.calls s2 ++ cs ∧ ∃ e, r = Py.Raise e
     end).
Proof.
  intros Hrun. split; [apply main_releases|].
  rewrite script_unfold in Hrun.
  destruct (SephoraScr.scrape_categories B2 fuel SephoraScr.categories
              (SephoraScr.set_final_df [] s2)) as [[r1 s3]|] eqn:Hcats; [|done].
  apply scrape_categories_spec in Hcats
    as (new & cs & _ & _ & _ & Hc & Hq & _); [|apply categories_nodup].
  exists cs. split; [done|]. cbn in Hc.
  destruct r1 as [[]|e].
  - destruct (session_quit_spec B2 s3) as (r2 & s4 & Hquit & _ & Hc4 & _).
    rewrite Hquit in Hrun.
    assert (SephoraScr.calls s2' = SephoraScr.calls s4) as ->
      by (destruct r2 as [[]|e]; by injection Hrun as <- <-).
    by rewrite Hc4, Hc, <- app_assoc.
  - injection Hrun as <- <-. eauto.
Qed.

End session_release.

Section session_release_examples.

(** A run of the detail extractor that an interrupt ends, and a run of
    the link collector on a shop that is down. *)
Lemma session_release_witness :
  (∃ cs, ProductScr.calls
           (ProductScr.main ProductDemo.browser ProductDemo.parse
              [ProductScr.Text ProductDemo.busy_url] [ProductDemo.skincare]
              ProductDemo.start).2
         = [] ++ cs ++ [ProductScr.Quit] ∧ ProductScr.Quit ∉ cs) ∧
  (∃ cs, (SephoraScr.Quit ∉ cs) ∧
     SephoraScr.calls
       (SephoraDemo.store_of
          (SephoraScr.script (SephoraDemo.browser SephoraDemo.closed_shop) 20
             SephoraDemo.start)) = [] ++ cs ∧
     ∃ e, Py.Raise Py.WebDriverException = Py.Raise (A:=unit) e).
Proof.
  apply (session_release ProductDemo.browser ProductDemo.parse
           (SephoraDemo.browser SephoraDemo.closed_shop)
           [ProductScr.Text ProductDemo.busy_url] [ProductDemo.skincare]
           ProductDemo.start 20 SephoraDemo.start).
  vm_compute. reflexivity.
Defined.

(** C2 as stated fails for the link collector: when the shop is down the
    first request raises, the exception leaves the script, and
    [driver.quit()] is never called. *)
Lemma link_collector_keeps_session :
  SephoraScr.script (SephoraDemo.browser SephoraDemo.closed_shop) 20 SephoraDemo.start
  = Some (Py.Raise Py.WebDriverException,
          SephoraDemo.store_of
            (SephoraScr.script (SephoraDemo.browser SephoraDemo.closed_shop) 20
               SephoraDemo.start)) ∧
  SephoraScr.calls
    (SephoraDemo.store_of
       (SephoraScr.script (SephoraDemo.browser SephoraDemo.closed_shop) 20
          SephoraDemo.start))
  = [SephoraScr.Get (SephoraScr.page_url SephoraScr.shop_url "cleanser" 1)] ∧
  ¬ released_on_every_exit.
Proof.
  split_and!; [vm_compute; reflexivity..|].
  intros [_ H].
  destruct (H _ (SephoraDemo.browser SephoraDemo.closed_shop) 20 SephoraDemo.start
              _ _ ltac:(vm_compute; reflexivity)) as (cs & Hcs & Hq).
  vm_compute in Hcs. subst cs.
  apply list_elem_of_singleton in Hq. discriminate.
Qed.

End session_release_examples.

(** * More about the detail extractor *)

Section product_scr_more.
Import Py ProductScr ProductSpec ProductExtra.
Context {W : Type} (B : WebDriver W) (BeautifulSoup : string → Soup.node).

Local Abbreviation state := (ProductScr.state (W:=W)).

Lemma render_raise_class url (s : state) e s' :
  only_Exception B →
  render B BeautifulSoup url s = (Raise e, s') → isinstance_Exception e = true.
Proof.
  intros (Hget & Hwait & Hfind & Hscroll & Hsrc).
  unfold render, driver_get, journal, print, session, try_except, bind, modify, ret.
  cbn.
  destruct (drv_get B url (driver s)) as [[[]|e1] w1] eqn:H1; cbn;
    [|intros [= <- <-]; eauto].
  destruct (drv_wait_body B 15 w1) as [[[]|e2] w2] eqn:H2; cbn;
    [|intros [= <- <-]; eauto].
  destruct (drv_find_element_by_id B "ingredients" w2) as [[el|e3] w3] eqn:H3; cbn.
  - destruct (drv_scroll_into_view B el w3) as [[[]|e4] w4] eqn:H4; cbn.
    + destruct (drv_page_source B w4) as [[src|e5] w5] eqn:H5; cbn; [done|].
      intros [= <- <-]; eauto.
    + rewrite (Hscroll _ _ _ _ H4). cbn.
      destruct (drv_page_source B w4) as [[src|e5] w5] eqn:H5; cbn; [done|].
      intros [= <- <-]; eauto.
  - rewrite (Hfind _ _ _ _ H3). cbn.
    destruct (drv_page_source B w3) as [[src|e5] w5] eqn:H5; cbn; [done|].
    intros [= <- <-]; eauto.
Qed.

Lemma scrape_item_returns url category (s : state) :
  only_Exception B → (scrape_item B BeautifulSoup url category s).1 = Ok tt.
Proof.
  intros HB.
  pose proof (scrape_item_spec B BeautifulSoup url category s) as (_ & _ & _ & H).
  destruct (render B BeautifulSoup url s) as [[soup|e] s1] eqn:Hr; [by destruct H|].
  destruct H as (_ & _ & ->). by rewrite (render_raise_class _ _ _ _ HB Hr).
Qed.

Lemma scrape_all_returns (items : list (cell * cell)) (s : state) :
  only_Exception B → (scrape_all B BeautifulSoup items s).1 = Ok tt.
Proof.
  intros HB. revert s. induction items as [|[u c] items IH]; intros s; [done|].
  rewrite scrape_all_cons.
  pose proof (scrape_item_returns u c s HB) as Hi.
  destruct (scrape_item B BeautifulSoup u c s) as [[[]|e] s']; [apply IH | done].
Qed.

(** X1: when the session raises nothing but instances of [Exception] and
    [driver.quit()] does not raise, no page ends the run: [main] returns,
    every item has been requested, in the order of the input, and both
    files are written with the tables of the run. *)
Theorem bad_pages_never_abort urls categories (s : state) :
  only_Exception B →
  (∀ w, (drv_quit B w).1 = Ok tt) →
  let r := main B BeautifulSoup urls categories s in
  r.1 = Ok tt ∧
  calls r.2 = calls s ++ map (λ i, Get i.1) (zip urls categories) ++ [Quit] ∧
  product_data_csv r.2 = Some (products r.2) ∧
  product_skipped_csv r.2 = Some (skipped_urls r.2).
Proof.
  intros HB Hquit. cbn zeta.
  pose proof (main_spec B BeautifulSoup urls categories s) as (_ & _ & Hc & Hf).
  set (s0 := set_skipped_urls [] (set_products [] s)) in *.
  pose proof (scrape_all_grows B BeautifulSoup (zip urls categories) s0)
    as (ps & ks & reached & _ & _ & Hcalls & _ & Hall & _).
  pose proof (scrape_all_returns (zip urls categories) s0 HB) as Hloop.
  cbn zeta in *. rewrite (Hall Hloop) in Hcalls.
  assert ((main B BeautifulSoup urls categories s).1 = Ok tt) as Hok.
  { rewrite main_unfold. cbn zeta. fold s0.
    destruct (scrape_all B BeautifulSoup (zip urls categories) s0) as [r1 s1].
    cbn in Hloop. subst r1.
    unfold driver_quit, journal, session, bind, modify. cbn.
    specialize (Hquit (driver s1)).
    destruct (drv_quit B (driver s1)) as [[[]|e] w]; [done | discriminate]. }
  rewrite Hok in Hf. destruct Hf as (_ & -> & ->).
  rewrite Hc, Hcalls, <- app_assoc. done.
Qed.

(** X2: an exception of [driver.quit()] in the [finally] block is the
    result of [main], also when the loop has returned, and then neither
    file is written. *)
Theorem quit_failure_loses_output urls categories (s : state) e w :
  let loop := scrape_all B BeautifulSoup (zip urls categories)
                (set_skipped_urls [] (set_products [] s)) in
  drv_quit B (driver loop.2) = (Raise e, w) →
  let r := main B BeautifulSoup urls categories s in
  r.1 = Raise e ∧
  products r.2 = products loop.2 ∧
  skipped_urls r.2 = skipped_urls loop.2 ∧
  product_data_csv r.2 = product_data_csv s ∧
  product_skipped_csv r.2 = product_skipped_csv s.
Proof.
  cbn zeta. intros Hquit.
  pose proof (main_spec B BeautifulSoup urls categories s) as (Hp & Hk & _ & Hf).
  assert ((main B BeautifulSoup urls categories s).1 = Raise e) as Hr.
  { rewrite main_unfold. cbn zeta.
    destruct (scrape_all B BeautifulSoup (zip urls categories) _) as [r1 s1].
    unfold driver_quit, journal, session, bind, modify. cbn in *.
    by rewrite Hquit. }
  cbn zeta in *. rewrite Hr in Hf. by destruct Hf.
Qed.

(** X3: a run that returns has requested every item once, in the order of
    the input, without a second attempt for any of them, and has released
    the session after the last request. *)
Theorem one_request_per_item urls categories (s : state) :
  (main B BeautifulSoup urls categories s).1 = Ok tt →
  calls (main B BeautifulSoup urls categories s).2
  = calls s ++ map (λ i, Get i.1) (zip urls categories) ++ [Quit].
Proof.
  intros Hok.
  pose proof (main_spec B BeautifulSoup urls categories s) as (_ & _ & Hc & Hf).
  cbn zeta in *. rewrite Hok in Hf. destruct Hf as (Hloop & _).
  pose proof (scrape_all_grows B BeautifulSoup (zip urls categories)
                (set_skipped_urls [] (set_products [] s)))
    as (ps & ks & reached & _ & _ & Hcalls & _ & Hall & _).
  cbn zeta in *. rewrite (Hall Hloop) in Hcalls.
  by rewrite Hc, Hcalls, <- app_assoc.
Qed.

(** X4: the scroll to the ingredients section is an attempt only: when
    the page has no such section, so that [find_element] raises an
    instance of [Exception], the page is parsed all the same and the
    iteration goes on with what [page_source] returns. *)
Theorem missing_section_is_tolerated url (s : state) w1 w2 w3 w4 e source :
  drv_get B url (driver s) = (Ok tt, w1) →
  drv_wait_body B 15 w1 = (Ok tt, w2) →
  drv_find_element_by_id B "ingredients" w2 = (Raise e, w3) →
  isinstance_Exception e = true →
  drv_page_source B w3 = (Ok source, w4) →
  (render B BeautifulSoup url s).1 = Ok (BeautifulSoup source) ∧
  driver (render B BeautifulSoup url s).2 = w4.
Proof.
  intros Hget Hwait Hfind He Hsrc.
  unfold render, driver_get, journal, print, session, try_except, bind, modify, ret.
  cbn. rewrite Hget. cbn. rewrite Hwait. cbn. rewrite Hfind. cbn.
  rewrite He. cbn. rewrite Hsrc. done.
Qed.

Lemma render_stdout url (s : state) :
  stdout (render B BeautifulSoup url s).2 = stdout s ++ [Scraping url].
Proof.
  unfold render, driver_get, journal, print, session, try_except, bind, modify, ret.
  cbn. repeat (case_match; simplify_eq/=); done.
Qed.

(** X5: what one iteration prints: the line "Scraping" with its URL and
    then, by the way the page renders, the line of the skipped product,
    or nothing, or, for an exception that is caught, the line "Error
    scraping" with the URL and the trace of that exception. *)
Theorem item_report url category (s : state) :
  stdout (scrape_item B BeautifulSoup url category s).2
  = stdout s ++ Scraping url :: report url (render B BeautifulSoup url s).
Proof.
  pose proof (render_stdout url s) as Hout.
  unfold scrape_item, try_except, report. rewrite item_body_unfold.
  destruct (render B BeautifulSoup url s) as [[soup|e] s1]; cbn in *.
  - unfold record. by destruct (found _); cbn; rewrite Hout, <- ?app_assoc.
  - by destruct (isinstance_Exception e); cbn; rewrite Hout, <- ?app_assoc.
Qed.

Lemma render_same_driver url (s t : state) :
  driver s = driver t →
  (render B BeautifulSoup url s).1 = (render B BeautifulSoup url t).1 ∧
  driver (render B BeautifulSoup url s).2 = driver (render B BeautifulSoup url t).2.
Proof.
  intros Hd.
  unfold render, driver_get, journal, print, session, try_except, bind, modify, ret.
  cbn. rewrite Hd. repeat (case_match; simplify_eq/=); first [done | congruence].
Qed.

Lemma scrape_item_driver url category (s : state) :
  driver (scrape_item B BeautifulSoup url category s).2
  = driver (render B BeautifulSoup url s).2.
Proof.
  unfold scrape_item, try_except. rewrite item_body_unfold.
  destruct (render B BeautifulSoup url s) as [[soup|e] s1]; cbn.
  - unfold record. by destruct (found _).
  - by destruct (isinstance_Exception e).
Qed.

(** Two stores with the same session: an iteration has the same result in
    both and appends the same rows to their tables. *)
Lemma scrape_item_same_driver url category (s t : state) :
  driver s = driver t →
  let a := scrape_item B BeautifulSoup url category s in
  let b := scrape_item B BeautifulSoup url category t in
  a.1 = b.1 ∧ driver a.2 = driver b.2 ∧
  ∃ ps ks, products a.2 = products s ++ ps ∧ products b.2 = products t ++ ps ∧
           skipped_urls a.2 = skipped_urls s ++ ks ∧
           skipped_urls b.2 = skipped_urls t ++ ks.
Proof.
  intros Hd. cbn zeta.
  pose proof (render_same_driver url s t Hd) as [Hr Hd'].
  rewrite !scrape_item_driver.
  pose proof (scrape_item_spec B BeautifulSoup url category s) as (_ & _ & _ & Hs).
  pose proof (scrape_item_spec B BeautifulSoup url category t) as (_ & _ & _ & Ht).
  destruct (render B BeautifulSoup url s) as [[soup|e] s1],
           (render B BeautifulSoup url t) as [[soup'|e'] t1];
    cbn in Hr, Hd'; simplify_eq.
  - destruct Hs as [-> Hs], Ht as [-> Ht]. split_and!; [done..|].
    destruct (found _); destruct Hs as [-> ->], Ht as [-> ->].
    + eexists [], [_]. by rewrite !app_nil_r.
    + eexists [_], []. by rewrite !app_nil_r.
  - destruct Hs as (-> & -> & ->), Ht as (-> & -> & ->). split_and!; [done..|].
    exists [], []. by rewrite !app_nil_r.
Qed.

Lemma scrape_all_same_driver (items : list (cell * cell)) (s t : state) :
  driver s = driver t →
  let a := scrape_all B BeautifulSoup items s in
  let b := scrape_all B BeautifulSoup items t in
  a.1 = b.1 ∧ driver a.2 = driver b.2 ∧
  ∃ ps ks, products a.2 = products s ++ ps ∧ products b.2 = products t ++ ps ∧
           skipped_urls a.2 = skipped_urls s ++ ks ∧
           skipped_urls b.2 = skipped_urls t ++ ks.
Proof.
  revert s t. induction items as [|[u c] items IH]; intros s t Hd.
  { cbn. split_and!; [done..|]. exists [], []. by rewrite !app_nil_r. }
  cbn zeta. rewrite !scrape_all_cons.
  pose proof (scrape_item_same_driver u c s t Hd)
    as (Hr & Hd' & ps & ks & Hp1 & Hp2 & Hk1 & Hk2).
  destruct (scrape_item B BeautifulSoup u c s) as [r1 s1],
           (scrape_item B BeautifulSoup u c t) as [r2 t1]; cbn in *. subst r2.
  destruct r1 as [[]|e]; cbn.
  - destruct (IH s1 t1 Hd') as (Hr' & Hd'' & ps' & ks' & Hp1' & Hp2' & Hk1' & Hk2').
    split_and!; [done..|]. exists (ps ++ ps'), (ks ++ ks').
    rewrite Hp1', Hp2', Hk1', Hk2', Hp1, Hp2, Hk1, Hk2, <- !app_assoc. done.
  - split_and!; [done..|]. by exists ps, ks.
Qed.

(** X6: a run starts from empty tables and overwrites the files: its
    result, its two tables and, when it returns, the two files it writes
    depend on the session and on the input only, not on what the tables
    and the files held before. *)
Theorem output_is_fresh urls categories (s t : state) :
  driver s = driver t →
  let a := main B BeautifulSoup urls categories s in
  let b := main B BeautifulSoup urls categories t in
  a.1 = b.1 ∧
  products a.2 = products b.2 ∧
  skipped_urls a.2 = skipped_urls b.2 ∧
  match a.1 with
  | Ok _ =>
      product_data_csv a.2 = product_data_csv b.2 ∧
      product_skipped_csv a.2 = product_skipped_csv b.2
  | Raise _ => True
  end.
Proof.
  intros Hd. cbn zeta.
  pose proof (main_spec B BeautifulSoup urls categories s) as (Hp & Hk & _ & Hf).
  pose proof (main_spec B BeautifulSoup urls categories t) as (Hp' & Hk' & _ & Hf').
  cbn zeta in *.
  pose proof (scrape_all_same_driver (zip urls categories)
                (set_skipped_urls [] (set_products [] s))
                (set_skipped_urls [] (set_products [] t)) Hd)
    as (Hr & Hd' & ps & ks & Hp1 & Hp2 & Hk1 & Hk2).
  cbn zeta in *. cbn [products skipped_urls set_skipped_urls set_products] in *.
  assert ((main B BeautifulSoup urls categories s).1
          = (main B BeautifulSoup urls categories t).1) as Hmain.
  { rewrite !main_unfold. cbn zeta.
    destruct (scrape_all B BeautifulSoup (zip urls categories)
                (set_skipped_urls [] (set_products [] s))) as [r1 s1],
             (scrape_all B BeautifulSoup (zip urls categories)
                (set_skipped_urls [] (set_products [] t))) as [r2 t1].
    cbn in Hr, Hd'. subst r2.
    unfold driver_quit, journal, session, bind, modify. cbn. rewrite Hd'.
    destruct (drv_quit B (driver t1)) as [[[]|e] w]; [|done]. by destruct r1. }
  rewrite Hp, Hp', Hk, Hk', Hp1, Hp2, Hk1, Hk2. split_and!; [done..|].
  rewrite <- Hmain in Hf'.
  destruct (main B BeautifulSoup urls categories s).1; [|done].
  destruct Hf as (_ & -> & ->), Hf' as (_ & -> & ->).
  by rewrite Hp, Hp', Hk, Hk', Hp1, Hp2, Hk1, Hk2.
Qed.

End product_scr_more.

(** * More about the extraction from the parsed page *)

Section extraction_more.
Import Py ProductScr ProductSpec ProductExtra.

Lemma string_length_app (a b : string) :
  String.length (a +:+ b) = String.length a + String.length b.
Proof. induction a as [|c a IH]; [done|]. cbn. by rewrite <- IH. Qed.

Lemma startswith_length p s :
  Str.startswith p s = true → String.length p ≤ String.length s.
Proof.
  revert s. induction p as [|a p IH]; intros [|b s]; cbn; try (done || lia).
  case_decide; [|done]. intros Hs. apply IH in Hs. lia.
Qed.

Lemma contains_length needle hay :
  Str.contains needle hay = true → String.length needle ≤ String.length hay.
Proof.
  induction hay as [|c hay IH]; cbn [Str.contains].
  - rewrite orb_false_r. apply startswith_length.
  - intros Hc. apply orb_true_iff in Hc as [Hc|Hc].
    + by apply startswith_length in Hc.
    + apply IH in Hc. cbn. lia.
Qed.

Lemma contains_self s : Str.contains s s = true.
Proof.
  assert (Str.startswith s s = true) as H.
  { induction s as [|a s IH]; [done|]. cbn [Str.startswith].
    by rewrite decide_True. }
  destruct s; cbn [Str.contains]; by rewrite H.
Qed.





(** X8: the test for the marker reads one text node at a time.  When the
    marker is split in two parts that stand in two different text nodes,
    the text of the page contains the marker and the test does not find
    it: the iteration appends a product row for the page and nothing to
    the skipped table. *)
Theorem split_marker_is_not_seen {W : Type} (B : WebDriver W)
    (BeautifulSoup : string → Soup.node) (a b : string)
    url category (s s1 : state (W:=W)) :
  marker = a +:+ b → a ≠ EmptyString → b ≠ EmptyString →
  let soup :=
    Soup.Tag "[document]" ∅
      [Soup.Tag "p" ∅ [Soup.NavigableString a;
                       Soup.Tag "b" ∅ [Soup.NavigableString b]]] in
  render B BeautifulSoup url s = (Ok soup, s1) →
  Str.contains marker (Soup.text soup) = true ∧
  ¬ shows_marker soup ∧
  products (scrape_item B BeautifulSoup url category s).2
    = products s ++ [extract url category soup] ∧
  skipped_urls (scrape_item B BeautifulSoup url category s).2 = skipped_urls s.
Proof.
  intros Hab Ha Hb soup Hrender.
  assert (String.length a < String.length marker ∧
          String.length b < String.length marker) as [Hla Hlb].
  { rewrite Hab, string_length_app. destruct a, b; cbn; try done; lia. }
  assert (¬ shows_marker soup) as Hnot.
  { intros (t & Ht & Hc). apply contains_length in Hc.
    cbn in Ht. apply elem_of_cons in Ht as [->|Ht]; [lia|].
    apply list_elem_of_singleton in Ht as ->. lia. }
  split_and!; [|done|..].
  - change (Soup.text soup) with (a +:+ (EmptyString +:+ b)).
    change (EmptyString +:+ b) with b. rewrite <- Hab. apply contains_self.
  - pose proof (scrape_item_spec B BeautifulSoup url category s) as (_ & _ & _ & H).
    rewrite Hrender in H. destruct H as [_ H].
    destruct (found _) eqn:Hf; [by apply found_shows_marker in Hf | by destruct H].
  - pose proof (scrape_item_spec B BeautifulSoup url category s) as (_ & _ & _ & H).
    rewrite Hrender in H. destruct H as [_ H].
    destruct (found _) eqn:Hf; [by apply found_shows_marker in Hf | by destruct H].
Qed.


End extraction_more.

(** * More about the link collector *)

Section sephora_scr_more.
Import Py SephoraScr SephoraSpec SephoraExtra.
Context {W : Type} (B : WebDriver W).

Local Abbreviation state := (SephoraScr.state (W:=W)).

Lemma stable_run (cs : list Z) n k :
  stable_after cs n → k ≤ 7 → cs !! (n - 1 - k) = cs !! (n - 1).
Proof.
  intros [[Hn Hlen] Hrun]. induction k as [|k IH]; intros Hk.
  { by rewrite Nat.sub_0_r. }
  rewrite <- IH by lia.
  assert (unchanged cs (n - 1 - k)) as Hu by (apply Hrun; lia).
  assert (n - 1 - k = S (n - 1 - S k)) as Heq.
  { destruct (decide (n - 1 - k = 0)) as [H0|]; [|lia].
    rewrite H0 in Hu. done. }
  rewrite Heq in Hu. destruct Hu as (c & H1 & H2).
  by rewrite Heq, H1, H2.
Qed.

Lemma stable_after_eight (cs : list Z) n : stable_after cs n → 8 ≤ n.
Proof.
  intros [[Hn Hlen] Hrun].
  destruct (decide (n = 7)) as [->|]; [|lia].
  by specialize (Hrun 0 ltac:(lia)).
Qed.

(** X10: the scroll loop never hands on the blocks of a page before it has
    counted them eight times: when it returns, it has made at least eight
    counts, and each of the last eight found as many blocks as it returns,
    also on a page without blocks. *)
Theorem at_least_eight_counts fuel (s s' : state) product_blocks :
  scroll_loop B fuel (-1) 0 [] s = Some (Ok product_blocks, s') →
  ∃ obs, 8 ≤ length obs ≤ fuel ∧
         observe B (length obs) s = Some (Ok obs, s') ∧
         ∀ i, length obs - 8 ≤ i < length obs →
              counts obs !! i = Some (Z.of_nat (length product_blocks)).
Proof.
  intros (obs & Hlen & Hobs & Hlast & Hex)%scroll_loop_exits.
  apply exits_first_stable in Hex as [Hst _]; [|apply counts_nonneg].
  assert (length (counts obs) = length obs) as Hc by apply length_map.
  rewrite Hc in Hst. pose proof (stable_after_eight _ _ Hst) as H8.
  exists obs. split_and!; [done..|].
  intros i Hi.
  replace i with (length obs - 1 - (length obs - 1 - i)) by lia.
  rewrite (stable_run _ _ _ Hst) by lia.
  destruct obs as [|pb obs _] using rev_ind; [cbn in H8; lia|].
  rewrite last_last in Hlast. subst pb.
  unfold counts. rewrite map_app, length_app. cbn.
  rewrite lookup_app_r; rewrite length_map; [|lia].
  by replace (length obs + 1 - 1 - length obs) with 0 by lia.
Qed.

(** X11: the scroll loop has no bound of its own: on a restless page,
    where every count finds another number of blocks than the count
    before it, the loop does not end, however much fuel it is given. *)
Theorem restless_page_never_ends (I : Z → state → Prop) fuel previous_count
    scroll_attempts product_blocks (s : state) :
  restless B I → I previous_count s → scroll_attempts < 7 →
  scroll_loop B fuel previous_count scroll_attempts product_blocks s = None.
Proof.
  intros Hrest. revert previous_count scroll_attempts product_blocks s.
  induction fuel as [|fuel IH]; intros prev a b s HI Ha.
  - cbn. by rewrite bool_decide_eq_true_2.
  - rewrite scroll_loop_step by done.
    destruct (Hrest prev s HI) as (pb & s1 & -> & Hne & HI1). cbn zeta.
    apply IH; [done|]. unfold count_step. cbn.
    rewrite bool_decide_eq_false_2 by done. lia.
Qed.

(** A property of the table that appending a row with a true link target
    keeps is kept by every part of the script. *)
Section table_invariant.
Context (P : list link → Prop).
Context (P_row : ∀ l cat href, Str.truthy href = true → P l →
                   P (l ++ [{| category := cat; URL := href |}])).

Lemma for_fold_keeps {X A} (body : X → A → MW state A) l :
  (∀ x acc s r s', body x acc s = Some (r, s') → P (final_df s) → P (final_df s')) →
  ∀ acc s r s', for_fold l body acc s = Some (r, s') →
                P (final_df s) → P (final_df s').
Proof.
  intros Hbody. induction l as [|x l IH]; intros acc s r s'.
  - by intros [= <- <-].
  - cbn [for_fold]. unfold bindW at 1.
    destruct (body x acc s) as [[[acc1|e] s1]|] eqn:Hx; [| |done].
    + intros H HP. eapply IH; [done|]. by eapply Hbody.
    + intros [= <- <-] HP. by eapply Hbody.
Qed.

Lemma collect_anchor_keeps cat anchor seen (s s' : state) r :
  collect_anchor B cat anchor seen s = Some (r, s') →
  P (final_df s) → P (final_df s').
Proof using P_row.
  unfold collect_anchor, bindW at 1.
  destruct (session _ s) as [[[href|e] s1]|] eqn:Hs; [| |done].
  - apply session_quiet in Hs as (Hf & _). rewrite <- Hf.
    destruct href as [href|]; [|by intros [= <- <-]].
    destruct (Str.truthy href && bool_decide (href ∉ seen)) eqn:Hnew;
      [|by intros [= <- <-]].
    apply andb_true_iff in Hnew as [Htrue _].
    intros [= <- <-]. cbn. by apply P_row.
  - apply session_quiet in Hs as (Hf & _). intros [= <- <-]. by rewrite Hf.
Qed.

Lemma collect_links_keeps cat product_blocks seen (s s' : state) r :
  collect_links B cat product_blocks seen s = Some (r, s') →
  P (final_df s) → P (final_df s').
Proof using P_row.
  apply for_fold_keeps. intros block acc t r0 t'. unfold bindW at 1.
  destruct (session _ t) as [[[anchors|e] s1]|] eqn:Hs; [| |done].
  - apply session_quiet in Hs as (Hf & _). rewrite <- Hf.
    apply for_fold_keeps. intros ?????. apply collect_anchor_keeps.
  - apply session_quiet in Hs as (Hf & _). intros [= <- <-]. by rewrite Hf.
Qed.

Lemma scrape_page_keeps fuel base_url cat page seen (s s' : state) r :
  scrape_page B fuel base_url cat page seen s = Some (r, s') →
  P (final_df s) → P (final_df s').
Proof using P_row.
  unfold scrape_page, bindW at 1.
  destruct (load_page B fuel base_url cat page s) as [[[pb|e] s1]|] eqn:Hload; [| |done].
  - apply load_page_spec in Hload as (Hf & _). rewrite <- Hf.
    unfold bindW at 1. cbn [print total modify].
    set (s2 := set_stdout _ s1). change (final_df s1) with (final_df s2).
    case_bool_decide; [by intros [= <- <-]|].
    unfold bindW at 1.
    destruct (collect_links B cat pb seen s2) as [[[seen'|e] s3]|] eqn:Hcol; [| |done].
    + intros [= <- <-]. by eapply collect_links_keeps.
    + intros [= <- <-]. by eapply collect_links_keeps.
  - apply load_page_spec in Hload as (Hf & _). intros [= <- <-]. by rewrite Hf.
Qed.

Lemma for_pages_keeps fuel base_url cat (pages : list nat) seen (s s' : state) r :
  for_pages B fuel base_url cat pages seen s = Some (r, s') →
  P (final_df s) → P (final_df s').
Proof using P_row.
  revert seen s. induction pages as [|p pages IH]; intros seen s.
  { by intros [= <- <-]. }
  cbn [for_pages]. unfold bindW at 1.
  destruct (scrape_page B fuel base_url cat p seen s) as [[[f|e] s1]|] eqn:Hp; [| |done].
  - destruct f as [seen1|].
    + intros H HP. eapply IH; [done|]. by eapply scrape_page_keeps.
    + intros [= <- <-]. by eapply scrape_page_keeps.
  - intros [= <- <-]. by eapply scrape_page_keeps.
Qed.

Lemma scrape_category_keeps fuel base_url cat max_pages (s s' : state) r :
  scrape_all_paginated_products B fuel base_url cat max_pages s = Some (r, s') →
  P (final_df s) → P (final_df s').
Proof using P_row.
  unfold scrape_all_paginated_products, bindW.
  destruct (for_pages B fuel base_url cat (seq 1 max_pages) ∅ s)
    as [[r' s1]|] eqn:Hpages; [|done].
  intros H. assert (s' = s1) as -> by (destruct r'; unfold retW in H; congruence).
  by eapply for_pages_keeps.
Qed.

Lemma script_keeps fuel (s s' : state) r :
  P [] → script B fuel s = Some (r, s') → P (final_df s').
Proof using P_row.
  intros Hnil. rewrite script_unfold.
  destruct (scrape_categories B fuel categories (set_final_df [] s))
    as [[r1 s1]|] eqn:Hcats; [|done].
  assert (P (final_df s1)) as H1.
  { revert Hcats. unfold scrape_categories. intros Hcats.
    eapply for_fold_keeps in Hcats; [done| |done].
    intros c [] ? ? ?. apply scrape_category_keeps. }
  destruct r1 as [[]|e]; [|by intros [= <- <-]].
  destruct (session_quit_spec B s1) as (r2 & s2 & -> & Hf2 & _).
  destruct r2 as [[]|e]; intros [= <- <-]; cbn; by rewrite ?Hf2.
Qed.

End table_invariant.

(** X12: no row of the table has an empty URL: an anchor whose link
    target is missing or empty adds no row. *)
Theorem no_empty_url fuel (s s' : state) r :
  script B fuel s = Some (r, s') →
  Forall (λ l, URL l ≠ EmptyString) (final_df s').
Proof.
  apply (script_keeps (Forall (λ l, URL l ≠ EmptyString))); [|constructor].
  intros l cat href Htrue Hl. apply Forall_app. split; [done|].
  repeat constructor. cbn. by destruct href.
Qed.

Lemma for_fold_app {X A} (body : X → A → MW state A) (l1 l2 : list X) acc (s : state) :
  for_fold (l1 ++ l2) body acc s =
  match for_fold l1 body acc s with
  | Some (Ok acc1, s1) => for_fold l2 body acc1 s1
  | o => o
  end.
Proof.
  revert acc s. induction l1 as [|x l1 IH]; intros acc s; [done|].
  cbn [app for_fold]. unfold bindW.
  destruct (body x acc s) as [[[acc1|e] s1]|]; first [done | apply IH].
Qed.

(** X13: the link collector has no isolation between categories: when the
    scrape of one category raises, the script ends with that exception in
    the store in which it was raised: the categories behind it are not
    scraped, the session is not released, and the file is not written,
    although the table holds the rows of the categories before. *)
Theorem exception_ends_collection fuel before c after (s s1 s2 : state) e :
  categories = before ++ c :: after →
  scrape_categories B fuel before (set_final_df [] s) = Some (Ok tt, s1) →
  scrape_all_paginated_products B fuel shop_url c 50 s1 = Some (Raise e, s2) →
  script B fuel s = Some (Raise e, s2) ∧
  product_urls_full_csv s2 = product_urls_full_csv s ∧
  (∃ new, final_df s2 = final_df s1 ++ new) ∧
  ∃ cs, calls s2 = calls s ++ cs ∧ Quit ∉ cs.
Proof.
  intros Hcats Hbefore Hc.
  assert (scrape_categories B fuel categories (set_final_df [] s) = Some (Raise e, s2))
    as Hrun.
  { rewrite Hcats. unfold scrape_categories in *.
    rewrite for_fold_app, Hbefore. cbn [for_fold]. unfold bindW. by rewrite Hc. }
  split_and!.
  - by rewrite script_unfold, Hrun.
  - apply scrape_categories_spec in Hrun as (? & ? & _ & _ & _ & _ & _ & Hcsv);
      [done | apply categories_nodup].
  - apply scrape_category_spec in Hc as (k & new & _ & _ & Hf & _). by exists new.
  - apply scrape_categories_spec in Hrun as (? & cs & _ & _ & _ & Hcalls & Hq & _);
      [|apply categories_nodup]. by exists cs.
Qed.

(** The visits of the loop over the categories: one for each category it
    reaches, in the order of the list. *)
Lemma scrape_categories_visits fuel cats (s s' : state) r :
  scrape_categories B fuel cats s = Some (r, s') →
  ∃ vs : list visit,
    (map visited vs `prefix_of` cats) ∧
    (r = Ok tt → map visited vs = cats) ∧
    Forall (λ v, pages v ≤ 50 ∧ fresh_rows (visited v) ∅ (rows v)) vs ∧
    final_df s' = final_df s ++ concat (map rows vs) ∧
    calls s' = calls s ++ concat (map requests_of vs).
Proof.
  unfold scrape_categories.
  revert s. induction cats as [|c cats IH]; intros s.
  { intros [= <- <-]. exists []. cbn. rewrite !app_nil_r. by split_and!. }
  cbn [for_fold]. unfold bindW at 1.
  destruct (scrape_all_paginated_products B fuel shop_url c 50 s)
    as [[[[]|e] s1]|] eqn:Hc; [| |done].
  - apply scrape_category_spec in Hc as (k & new & Hk & Hc1 & Hf1 & Hfr1 & _).
    intros (vs & Hpre & Hall & Hvs & Hf & Hcalls)%IH.
    exists ({| visited := c; pages := k; rows := new |} :: vs). cbn.
    rewrite Hf, Hf1, Hcalls, Hc1, <- !app_assoc.
    split_and!; try done.
    + by apply prefix_cons.
    + intros Hr. by rewrite (Hall Hr).
    + by constructor.
  - apply scrape_category_spec in Hc as (k & new & Hk & Hc1 & Hf1 & Hfr1 & _).
    intros [= <- <-].
    exists [{| visited := c; pages := k; rows := new |}]. cbn.
    rewrite !app_nil_r. split_and!; try done.
    + apply prefix_cons, prefix_nil.
    + apply Forall_cons. split; [done | apply Forall_nil_2].
Qed.

(** X14: the table of a run is made of one block of rows for each
    category that the run reaches, the blocks in the order of the list of
    categories, and every row of a block carries the category of the
    block. *)
Theorem rows_grouped_by_category fuel (s s' : state) r :
  script B fuel s = Some (r, s') →
  ∃ vs : list visit,
    (map visited vs `prefix_of` categories) ∧
    (r = Ok tt → map visited vs = categories) ∧
    final_df s' = concat (map rows vs) ∧
    Forall (λ v, Forall (λ l, category l = visited v) (rows v)) vs.
Proof.
  rewrite script_unfold.
  destruct (scrape_categories B fuel categories (set_final_df [] s))
    as [[r1 s1]|] eqn:Hcats; [|done].
  apply scrape_categories_visits in Hcats as (vs & Hpre & Hall & Hvs & Hf & _).
  cbn in Hf. intros Hrun. exists vs.
  assert (final_df s' = final_df s1 ∧ (r = Ok tt → r1 = Ok tt)) as [-> Hr].
  { destruct r1 as [[]|e]; [|by injection Hrun as <- <-].
    destruct (session_quit_spec B s1) as (r2 & s2 & Hq & Hf2 & _).
    rewrite Hq in Hrun. destruct r2 as [[]|e]; injection Hrun as <- <-; by cbn. }
  split_and!; [done | by intros ?%Hr%Hall | done |].
  eapply Forall_impl; [done|]. by intros v (_ & ? & _).
Qed.

Lemma requests_of_spec (v : visit) c :
  pages v ≤ 50 → c ∈ requests_of v →
  ∃ p, 1 ≤ p ≤ 50 ∧ c = Get (page_url shop_url (visited v) p).
Proof.
  intros Hk (p & -> & Hp)%list_elem_of_fmap. exists p. split; [|done].
  apply list_elem_of_In, in_seq in Hp. lia.
Qed.

(** X15: a run asks the browser for listing pages only: every request is
    for a page 1 to 50 of one of the categories of the list, there are at
    most 350 of them, and [driver.quit()] is called once at most, behind
    all of them. *)
Theorem requests_are_bounded fuel (s s' : state) r :
  script B fuel s = Some (r, s') →
  ∃ gets quits,
    calls s' = calls s ++ gets ++ quits ∧
    length gets ≤ 350 ∧
    (∀ c, c ∈ gets → ∃ cat p, cat ∈ categories ∧ 1 ≤ p ≤ 50 ∧
                              c = Get (page_url shop_url cat p)) ∧
    (quits = [] ∨ quits = [Quit]).
Proof.
  rewrite script_unfold.
  destruct (scrape_categories B fuel categories (set_final_df [] s))
    as [[r1 s1]|] eqn:Hcats; [|done].
  apply scrape_categories_visits in Hcats as (vs & Hpre & _ & Hvs & _ & Hcalls).
  cbn in Hcalls. intros Hrun.
  exists (concat (map requests_of vs)).
  assert (length (concat (map requests_of vs)) ≤ 50 * length vs) as Hlen.
  { clear -Hvs. induction Hvs as [|v vs [Hk _] _ IH]; [done|].
    cbn. rewrite length_app. unfold requests_of at 1.
    rewrite length_map, length_seq. lia. }
  assert (length vs ≤ 7) as H7.
  { apply prefix_length in Hpre. by rewrite length_map in Hpre. }
  assert (∀ c, c ∈ concat (map requests_of vs) →
            ∃ cat p, cat ∈ categories ∧ 1 ≤ p ≤ 50 ∧
                     c = Get (page_url shop_url cat p)) as Hshape.
  { intros c Hin. apply list_elem_of_In, in_concat in Hin as (reqs & Hreqs & Hc).
    apply list_elem_of_In, list_elem_of_fmap in Hreqs as (v & -> & Hv).
    apply list_elem_of_In in Hc.
    rewrite Forall_forall in Hvs. destruct (Hvs v Hv) as [Hk _].
    destruct (requests_of_spec v c Hk Hc) as (p & Hp & ->).
    exists (visited v), p. split_and!; [|lia|lia|done].
    destruct Hpre as [rest ->]. apply elem_of_app. left.
    by apply list_elem_of_fmap_2. }
  destruct r1 as [[]|e].
  - destruct (session_quit_spec B s1) as (r2 & s2 & Hq & _ & Hc2 & _).
    rewrite Hq in Hrun. exists [Quit].
    assert (calls s' = calls s2) as -> by (destruct r2 as [[]|e]; by injection Hrun as <- <-).
    rewrite Hc2, Hcalls, <- app_assoc. split_and!; [done | lia | done | by right].
  - injection Hrun as <- <-. exists []. rewrite app_nil_r.
    split_and!; [done | lia | done | by left].
Qed.

Lemma page_url_inj base_url cat : Inj (=) (=) (page_url base_url cat).
Proof.
  intros p q H. unfold page_url in H.
  by repeat apply (inj (String.app _)) in H; apply (inj pretty) in H.
Qed.

(** X16: one call never asks for a page twice: the URLs it requests are
    pairwise different. *)
Theorem no_page_twice fuel base_url cat max_pages (s s' : state) r :
  scrape_all_paginated_products B fuel base_url cat max_pages s = Some (r, s') →
  ∃ requested, calls s' = calls s ++ map Get requested ∧ NoDup requested.
Proof.
  intros (k & new & _ & Hc & _)%scrape_category_spec.
  exists (map (page_url base_url cat) (seq 1 k)). split.
  - by rewrite Hc, <- list_fmap_compose.
  - apply (NoDup_fmap_2 _), NoDup_ListNoDup, List.seq_NoDup.
Qed.

End sephora_scr_more.

(** * The further properties at work *)

Section more_examples.
Import Py.

Lemma plain_browser_only_Exception quit :
  ProductExtra.only_Exception (ExtraDemo.plain_browser quit).
Proof. repeat split; intros; cbn in *; by simplify_eq. Qed.

Lemma bad_pages_never_abort_witness :
  let r := ProductScr.main (ExtraDemo.plain_browser (Ok tt)) ProductDemo.parse
             [ProductScr.Text ProductDemo.cream_url; ProductScr.Text ProductDemo.slow_url]
             [ProductDemo.skincare; ProductDemo.skincare] ExtraDemo.plain_start in
  r.1 = Ok tt ∧
  ProductScr.calls r.2 =
    [] ++ [ProductScr.Get (ProductScr.Text ProductDemo.cream_url);
           ProductScr.Get (ProductScr.Text ProductDemo.slow_url)] ++ [ProductScr.Quit] ∧
  ProductScr.product_data_csv r.2 = Some (ProductScr.products r.2) ∧
  ProductScr.product_skipped_csv r.2 = Some (ProductScr.skipped_urls r.2).
Proof.
  apply (bad_pages_never_abort (ExtraDemo.plain_browser (Ok tt)) ProductDemo.parse).
  - apply plain_browser_only_Exception.
  - reflexivity.
Defined.

Lemma quit_failure_loses_output_witness :
  let r := ProductScr.main (ExtraDemo.plain_browser (Raise WebDriverException))
             ProductDemo.parse [ProductScr.Text ProductDemo.cream_url]
             [ProductDemo.skincare] ExtraDemo.plain_start in
  r.1 = Raise WebDriverException ∧
  length (ProductScr.products r.2) = 1 ∧
  ProductScr.product_data_csv r.2 = None.
Proof.
  pose proof (quit_failure_loses_output (ExtraDemo.plain_browser (Raise WebDriverException))
                ProductDemo.parse [ProductScr.Text ProductDemo.cream_url]
                [ProductDemo.skincare] ExtraDemo.plain_start WebDriverException tt) as H.
  cbn zeta in *. destruct H as (Hr & Hp & _ & Hf & _); [reflexivity|].
  split_and!; [exact Hr | rewrite Hp; reflexivity | exact Hf].
Defined.

Lemma one_request_per_item_witness :
  ProductScr.calls
    (ProductScr.main ProductDemo.browser ProductDemo.parse
       [ProductScr.Text ProductDemo.cream_url; ProductScr.Text ProductDemo.slow_url;
        ProductScr.Text ProductDemo.cream_url]
       [ProductDemo.skincare; ProductDemo.skincare; ProductDemo.skincare]
       ProductDemo.start).2
  = [] ++ [ProductScr.Get (ProductScr.Text ProductDemo.cream_url);
           ProductScr.Get (ProductScr.Text ProductDemo.slow_url);
           ProductScr.Get (ProductScr.Text ProductDemo.cream_url)] ++ [ProductScr.Quit].
Proof.
  apply (one_request_per_item ProductDemo.browser ProductDemo.parse).
  vm_compute. reflexivity.
Defined.

Lemma missing_section_is_tolerated_witness :
  (ProductScr.render ProductDemo.browser ProductDemo.parse
     (ProductScr.Text ProductDemo.mask_url) ProductDemo.start).1
  = Ok ProductDemo.mask_soup.
Proof.
  set (w := Some (ProductDemo.Renders ProductDemo.mask_source false)).
  destruct (missing_section_is_tolerated ProductDemo.browser ProductDemo.parse
              (ProductScr.Text ProductDemo.mask_url) ProductDemo.start
              w w w w NoSuchElementException ProductDemo.mask_source)
    as [Hr _]; [vm_compute; reflexivity..|].
  rewrite Hr. vm_compute. reflexivity.
Defined.

Lemma output_is_fresh_witness :
  let a := ProductScr.main ProductDemo.browser ProductDemo.parse
             [ProductScr.Text ProductDemo.cream_url] [ProductDemo.skincare]
             ProductDemo.start in
  let b := ProductScr.main ProductDemo.browser ProductDemo.parse
             [ProductScr.Text ProductDemo.cream_url] [ProductDemo.skincare]
             ExtraDemo.used_store in
  ProductScr.products a.2 = ProductScr.products b.2 ∧
  ProductScr.product_data_csv b.2 = Some (ProductScr.products a.2).
Proof.
  pose proof (output_is_fresh ProductDemo.browser ProductDemo.parse
                [ProductScr.Text ProductDemo.cream_url] [ProductDemo.skincare]
                ProductDemo.start ExtraDemo.used_store eq_refl) as H.
  cbn zeta in *. destruct H as (_ & Hp & _ & Hf).
  split; [exact Hp|]. vm_compute. reflexivity.
Defined.

Lemma split_marker_is_not_seen_witness :
  let r := ProductScr.scrape_item ProductDemo.browser (λ _, ExtraDemo.split_soup)
             (ProductScr.Text ProductDemo.mask_url) ProductDemo.skincare
             ProductDemo.start in
  Str.contains ProductScr.marker (Soup.text ExtraDemo.split_soup) = true ∧
  length (ProductScr.products r.2) = 1 ∧
  ProductScr.skipped_urls r.2 = [].
Proof.
  pose proof (split_marker_is_not_seen ProductDemo.browser (λ _, ExtraDemo.split_soup)
                ExtraDemo.marker_head ExtraDemo.marker_tail
                (ProductScr.Text ProductDemo.mask_url) ProductDemo.skincare
                ProductDemo.start
                (ProductScr.render ProductDemo.browser (λ _, ExtraDemo.split_soup)
                   (ProductScr.Text ProductDemo.mask_url) ProductDemo.start).2) as H.
  cbn zeta in *.
  destruct H as (Hc & _ & Hp & Hk);
    [reflexivity | discriminate | discriminate | vm_compute; reflexivity|].
  split_and!; [exact Hc | rewrite Hp; reflexivity | exact Hk].
Defined.


Lemma at_least_eight_counts_witness :
  let s := SephoraDemo.store_of
             (SephoraScr.session
                (SephoraScr.drv_get (SephoraDemo.browser SephoraDemo.shop)
                   (SephoraScr.page_url SephoraScr.shop_url "face-mask" 2))
                SephoraDemo.start) in
  ∃ obs, 8 ≤ length obs ≤ 20 ∧
         SephoraSpec.observe (SephoraDemo.browser SephoraDemo.shop) (length obs) s
           = Some (Ok obs,
                   SephoraDemo.store_of
                     (SephoraScr.scroll_loop (SephoraDemo.browser SephoraDemo.shop)
                        20 (-1) 0 [] s)) ∧
         ∀ i, length obs - 8 ≤ i < length obs →
              SephoraSpec.counts obs !! i = Some (Z.of_nat (length (@nil nat))).
Proof.
  cbn zeta.
  apply (at_least_eight_counts (SephoraDemo.browser SephoraDemo.shop) 20).
  vm_compute. reflexivity.
Defined.

Lemma feed_is_restless : SephoraExtra.restless ExtraDemo.feed ExtraDemo.feed_grows.
Proof.
  intros prev s Hs. unfold ExtraDemo.feed_grows in *.
  eexists _, _. split; [reflexivity|]. cbn. rewrite length_seq. lia.
Qed.

Lemma restless_page_never_ends_witness :
  SephoraScr.scroll_loop ExtraDemo.feed 1000 (-1) 0 [] ExtraDemo.feed_start = None.
Proof.
  apply (restless_page_never_ends ExtraDemo.feed ExtraDemo.feed_grows).
  - apply feed_is_restless.
  - unfold ExtraDemo.feed_grows. cbn. lia.
  - lia.
Defined.

Lemma no_empty_url_witness :
  Forall (λ l, SephoraScr.URL l ≠ EmptyString)
    (SephoraScr.final_df
       (SephoraDemo.store_of
          (SephoraScr.script (SephoraDemo.browser SephoraDemo.shop) 20
             SephoraDemo.start))).
Proof.
  apply (no_empty_url (SephoraDemo.browser SephoraDemo.shop) 20 SephoraDemo.start
           _ (Ok tt)).
  vm_compute. reflexivity.
Defined.

Lemma exception_ends_collection_witness :
  SephoraScr.script (SephoraDemo.browser SephoraDemo.closed_shop) 20 SephoraDemo.start
  = Some (Raise WebDriverException,
          SephoraDemo.store_of
            (SephoraScr.scrape_all_paginated_products
               (SephoraDemo.browser SephoraDemo.closed_shop) 20 SephoraScr.shop_url
               "cleanser" 50 (SephoraScr.set_final_df [] SephoraDemo.start))).
Proof.
  apply (exception_ends_collection (SephoraDemo.browser SephoraDemo.closed_shop) 20
           [] "cleanser" (tail SephoraScr.categories) SephoraDemo.start
           (SephoraScr.set_final_df [] SephoraDemo.start)).
  - reflexivity.
  - reflexivity.
  - vm_compute. reflexivity.
Defined.

Lemma rows_grouped_by_category_witness :
  ∃ vs : list SephoraExtra.visit,
    (map SephoraExtra.visited vs `prefix_of` SephoraScr.categories) ∧
    (Ok tt = Ok tt → map SephoraExtra.visited vs = SephoraScr.categories) ∧
    SephoraScr.final_df
      (SephoraDemo.store_of
         (SephoraScr.script (SephoraDemo.browser SephoraDemo.shop) 20 SephoraDemo.start))
    = concat (map SephoraExtra.rows vs) ∧
    Forall (λ v, Forall (λ l, SephoraScr.category l = SephoraExtra.visited v)
                   (SephoraExtra.rows v)) vs.
Proof.
  apply (rows_grouped_by_category (SephoraDemo.browser SephoraDemo.shop) 20
           SephoraDemo.start).
  vm_compute. reflexivity.
Defined.

Lemma requests_are_bounded_witness :
  ∃ gets quits,
    SephoraScr.calls
      (SephoraDemo.store_of
         (SephoraScr.script (SephoraDemo.browser SephoraDemo.shop) 20 SephoraDemo.start))
    = SephoraScr.calls SephoraDemo.start ++ gets ++ quits ∧
    length gets ≤ 350 ∧
    (∀ c, c ∈ gets → ∃ cat p, cat ∈ SephoraScr.categories ∧ 1 ≤ p ≤ 50 ∧
            c = SephoraScr.Get (SephoraScr.page_url SephoraScr.shop_url cat p)) ∧
    (quits = [] ∨ quits = [SephoraScr.Quit]).
Proof.
  apply (requests_are_bounded (SephoraDemo.browser SephoraDemo.shop) 20
           SephoraDemo.start _ (Ok tt)).
  vm_compute. reflexivity.
Defined.

Lemma no_page_twice_witness :
  ∃ requested,
    SephoraScr.calls
      (SephoraDemo.store_of
         (SephoraScr.scrape_all_paginated_products (SephoraDemo.browser SephoraDemo.shop)
            20 SephoraScr.shop_url "cleanser" 50 SephoraDemo.start))
    = SephoraScr.calls SephoraDemo.start ++ map SephoraScr.Get requested ∧
    NoDup requested.
Proof.
  apply (no_page_twice (SephoraDemo.browser SephoraDemo.shop) 20 SephoraScr.shop_url
           "cleanser" 50 SephoraDemo.start _ (Ok tt)).
  vm_compute. reflexivity.
Defined.

End more_examples.
